(** * A shallow embedding of the cnxt terminal-styling crate

    The data model of [src/src/color.rs], [src/src/style.rs] and the
    rendering part of [src/src/lib.rs]: colours, the style bit set, the
    coloured string and its [Display] implementation.

    Conventions: a Rust [u8] is a [nat] (colour components, palette
    indices) or a [Z] (the style bit mask, handled with [Z.land] and
    [Z.lor]); a Rust [&str] / [String] is a Stdlib [string], i.e. the
    sequence of its UTF-8 bytes, one [ascii] per byte. *)

From Stdlib Require Import Arith ZArith Lia List Bool.
From Stdlib Require Import Strings.String Strings.Ascii Numbers.DecimalString.
Import ListNotations.

Open Scope string_scope.

(* ------------------------------------------------------------------ *)
(** ** Strings *)

(** [format!("{n}")] for an unsigned integer. *)
Definition dec (n : nat) : string := NilEmpty.string_of_uint (Nat.to_uint n).

(** The escape byte [\x1B]. *)
Definition ESC : ascii := ascii_of_nat 27.

(** [slice::join(";")] on a list of strings. *)
Definition join (sep : string) (l : list string) : string := String.concat sep l.

(* ------------------------------------------------------------------ *)
(** ** The colour capability level ([control::ColorLevel]) *)

Module ColorLevel.
(** Modelled from the spec: [control::ColorLevel] (the module [control]
    is not among the sources). The process-wide level is one of
    Disabled ([None] in the code), Ansi16, Ansi256, TrueColor. *)
Inductive t := None | Ansi16 | Ansi256 | TrueColor.

Definition eqb (a b : t) : bool :=
  match a, b with
  | None, None | Ansi16, Ansi16 | Ansi256, Ansi256 | TrueColor, TrueColor => true
  | _, _ => false
  end.
End ColorLevel.

(* ------------------------------------------------------------------ *)
(** ** Colours ([color.rs]) *)

Inductive Color :=
| Black | Red | Green | Yellow | Blue | Magenta | Cyan | White
| BrightBlack | BrightRed | BrightGreen | BrightYellow
| BrightBlue | BrightMagenta | BrightCyan | BrightWhite
| Ansi256 (idx : nat)
| TrueColor (r g b : nat).

(** [ANSI_16_COLORS] *)
Definition ANSI_16_COLORS : list (nat * nat * nat * Color) :=
  [ (0, 0, 0, Black);
    (128, 0, 0, Red);
    (0, 128, 0, Green);
    (128, 128, 0, Yellow);
    (0, 0, 128, Blue);
    (128, 0, 128, Magenta);
    (0, 128, 128, Cyan);
    (192, 192, 192, White);
    (128, 128, 128, BrightBlack);
    (255, 0, 0, BrightRed);
    (0, 255, 0, BrightGreen);
    (255, 255, 0, BrightYellow);
    (0, 0, 255, BrightBlue);
    (255, 0, 255, BrightMagenta);
    (0, 255, 255, BrightCyan);
    (255, 255, 255, BrightWhite) ].

(** [CUBE_VALUES] *)
Definition CUBE_VALUES : list nat := [0; 95; 135; 175; 215; 255].

(** Array indexing; the out-of-range default is never reached from
    [ansi256_to_rgb] (indices below 16, cube digits below 6). *)
Definition at_idx {A} (d : A) (l : list A) (i : nat) : A := nth i l d.

(** [fn ansi256_to_rgb(idx: u8) -> (u8, u8, u8)]. For a [u8] index the
    gray value [8 + gray_level * 10] is at most 238, so no [u8]
    overflow occurs. *)
Definition ansi256_to_rgb (idx : nat) : nat * nat * nat :=
  if Nat.ltb idx 16 then
    let '(r, g, b, _) := at_idx (0, 0, 0, Black) ANSI_16_COLORS idx in (r, g, b)
  else if Nat.leb idx 231 then
    let idx := idx - 16 in
    let r := idx / 36 in
    let rem := idx mod 36 in
    let g := rem / 6 in
    let b := rem mod 6 in
    (at_idx 0 CUBE_VALUES r, at_idx 0 CUBE_VALUES g, at_idx 0 CUBE_VALUES b)
  else
    let gray_level := idx - 232 in
    let gray_value := 8 + gray_level * 10 in
    (gray_value, gray_value, gray_value).

(** [(i32::from(x) - i32::from(cx)).pow(2) as u32] summed over the three
    channels; the value is at most [3 * 255^2], well inside [u32]. *)
Definition distance_sq (r g b cr cg cb : nat) : Z :=
  let dr := ((Z.of_nat r - Z.of_nat cr) ^ 2)%Z in
  let dg := ((Z.of_nat g - Z.of_nat cg) ^ 2)%Z in
  let db := ((Z.of_nat b - Z.of_nat cb) ^ 2)%Z in
  (dr + dg + db)%Z.

Definition u32_MAX : Z := 4294967295%Z.

(** The loop body of [fallback_to_ansi16]: state [(min_distance_sq,
    closest_color)]. *)
Definition ansi16_step (r g b : nat) (st : Z * Color) (e : nat * nat * nat * Color)
  : Z * Color :=
  let '(min_distance_sq, closest_color) := st in
  let '(cr, cg, cb, color) := e in
  let distance_sq := distance_sq r g b cr cg cb in
  if (distance_sq <? min_distance_sq)%Z then (distance_sq, color)
  else (min_distance_sq, closest_color).

(** [Color::fallback_to_ansi16] *)
Definition fallback_to_ansi16 (self : Color) : Color :=
  let rgb :=
    match self with
    | Ansi256 idx => Some (ansi256_to_rgb idx)
    | TrueColor r g b => Some (r, g, b)
    | _ => Datatypes.None
    end in
  match rgb with
  | Datatypes.None => self
  | Some (r, g, b) =>
      snd (fold_left (ansi16_step r g b) ANSI_16_COLORS (u32_MAX, self))
  end.

(** The loop body of [fallback_to_ansi256]: state [(min_distance_sq,
    closest_idx)]. *)
Definition ansi256_step (r g b : nat) (st : Z * nat) (idx : nat) : Z * nat :=
  let '(min_distance_sq, closest_idx) := st in
  let '(cr, cg, cb) := ansi256_to_rgb idx in
  let distance_sq := distance_sq r g b cr cg cb in
  if (distance_sq <? min_distance_sq)%Z then (distance_sq, idx)
  else (min_distance_sq, closest_idx).

(** [Color::fallback_to_ansi256]; [for idx in 0u8..=255]. *)
Definition fallback_to_ansi256 (self : Color) : Color :=
  match self with
  | TrueColor r g b =>
      Ansi256 (snd (fold_left (ansi256_step r g b) (seq 0 256) (u32_MAX, 0)))
  | _ => self
  end.

(** [Color::to_fg_str], reading the current level [lvl]. The source
    recurses on the downgraded colour, which is a named colour or an
    [Ansi256] value; the recursion depth is therefore at most 3 and the
    fuel below never runs out (its [0] case is unreachable). *)
Fixpoint fg_str_fuel (fuel : nat) (lvl : ColorLevel.t) (self : Color) : string :=
  match fuel with
  | O => ""
  | S fuel' =>
      match self with
      | Black => "30" | Red => "31" | Green => "32" | Yellow => "33"
      | Blue => "34" | Magenta => "35" | Cyan => "36" | White => "37"
      | BrightBlack => "90" | BrightRed => "91" | BrightGreen => "92"
      | BrightYellow => "93" | BrightBlue => "94" | BrightMagenta => "95"
      | BrightCyan => "96" | BrightWhite => "97"
      | Ansi256 idx => "38;5;" ++ dec idx
      | TrueColor r g b =>
          match lvl with
          | ColorLevel.Ansi16 => fg_str_fuel fuel' lvl (fallback_to_ansi16 self)
          | ColorLevel.Ansi256 => fg_str_fuel fuel' lvl (fallback_to_ansi256 self)
          | _ => "38;2;" ++ dec r ++ ";" ++ dec g ++ ";" ++ dec b
          end
      end
  end.

Definition to_fg_str (lvl : ColorLevel.t) (self : Color) : string :=
  fg_str_fuel 3 lvl self.

(** [Color::to_bg_str], same shape; here [Ansi256] is downgraded too
    under [Ansi16]. *)
Fixpoint bg_str_fuel (fuel : nat) (lvl : ColorLevel.t) (self : Color) : string :=
  match fuel with
  | O => ""
  | S fuel' =>
      match self with
      | Black => "40" | Red => "41" | Green => "42" | Yellow => "43"
      | Blue => "44" | Magenta => "45" | Cyan => "46" | White => "47"
      | BrightBlack => "100" | BrightRed => "101" | BrightGreen => "102"
      | BrightYellow => "103" | BrightBlue => "104" | BrightMagenta => "105"
      | BrightCyan => "106" | BrightWhite => "107"
      | Ansi256 idx =>
          match lvl with
          | ColorLevel.Ansi16 => bg_str_fuel fuel' lvl (fallback_to_ansi16 self)
          | _ => "48;5;" ++ dec idx
          end
      | TrueColor r g b =>
          match lvl with
          | ColorLevel.Ansi16 => bg_str_fuel fuel' lvl (fallback_to_ansi16 self)
          | ColorLevel.Ansi256 => bg_str_fuel fuel' lvl (fallback_to_ansi256 self)
          | _ => "48;2;" ++ dec r ++ ";" ++ dec g ++ ";" ++ dec b
          end
      end
  end.

Definition to_bg_str (lvl : ColorLevel.t) (self : Color) : string :=
  bg_str_fuel 3 lvl self.

(** Named colours: the sixteen constructors without payload. *)
Definition is_named (c : Color) : bool :=
  match c with Ansi256 _ | TrueColor _ _ _ => false | _ => true end.

(* ------------------------------------------------------------------ *)
(** ** Style flags ([style.rs]) *)

(** [struct Style(u8)]: the bit mask, kept in [0, 256). *)
Record Style := MkStyle { style_bits : Z }.

Definition CLEARV : Z := 0%Z.
Definition BOLD : Z := 1%Z.
Definition UNDERLINE : Z := 2%Z.
Definition REVERSED : Z := 4%Z.
Definition ITALIC : Z := 8%Z.
Definition BLINK : Z := 16%Z.
Definition HIDDEN : Z := 32%Z.
Definition DIMMED : Z := 64%Z.
Definition STRIKETHROUGH : Z := 128%Z.

Inductive Styles :=
| Clear | Bold | Dimmed | Underline | Reversed | Italic | Blink | Hidden | Strikethrough.

(** [static STYLES] *)
Definition STYLES : list (Z * Styles) :=
  [ (BOLD, Bold); (DIMMED, Dimmed); (UNDERLINE, Underline);
    (REVERSED, Reversed); (ITALIC, Italic); (BLINK, Blink);
    (HIDDEN, Hidden); (STRIKETHROUGH, Strikethrough) ].

(** [pub static CLEAR: Style] *)
Definition CLEAR : Style := MkStyle CLEARV.

(** [Styles::to_str] *)
Definition Styles_to_str (s : Styles) : string :=
  match s with
  | Clear => ""
  | Bold => "1"
  | Dimmed => "2"
  | Italic => "3"
  | Underline => "4"
  | Blink => "5"
  | Reversed => "7"
  | Hidden => "8"
  | Strikethrough => "9"
  end.

(** [Styles::to_u8] *)
Definition Styles_to_u8 (s : Styles) : Z :=
  match s with
  | Clear => CLEARV
  | Bold => BOLD
  | Dimmed => DIMMED
  | Italic => ITALIC
  | Underline => UNDERLINE
  | Blink => BLINK
  | Reversed => REVERSED
  | Hidden => HIDDEN
  | Strikethrough => STRIKETHROUGH
  end.

(** [Styles::from_u8] *)
Definition Styles_from_u8 (u : Z) : option (list Styles) :=
  if (u =? CLEARV)%Z then Datatypes.None
  else
    let res := map snd (filter (fun '(mask, _) => negb (Z.land u mask =? 0)%Z) STYLES) in
    match res with [] => Datatypes.None | _ => Some res end.

(** [Style::contains] *)
Definition Style_contains (self : Style) (style : Styles) : bool :=
  let s := Styles_to_u8 style in
  (Z.land (style_bits self) s =? s)%Z.

(** [Style::to_str]; [unwrap_or_default] gives the empty vector. *)
Definition Style_to_str (self : Style) : string :=
  let styles := match Styles_from_u8 (style_bits self) with
                | Some v => v
                | Datatypes.None => []
                end in
  join ";" (map Styles_to_str styles).

(** [Style::add]: [self.0 |= two.to_u8()]. *)
Definition Style_add (self : Style) (two : Styles) : Style :=
  MkStyle (Z.lor (style_bits self) (Styles_to_u8 two)).

(** [Style == Style], the derived equality on the [u8]. *)
Definition Style_eqb (a b : Style) : bool := (style_bits a =? style_bits b)%Z.

(** [!x] on a [u8]: the complement of the eight bits. *)
Definition u8_not (x : Z) : Z := Z.land (Z.lnot x) 255.

(** [impl Not for Style] / [impl Not for Styles]. *)
Definition Style_not (self : Style) : Style := MkStyle (u8_not (style_bits self)).
Definition Styles_not (self : Styles) : Style := MkStyle (u8_not (Styles_to_u8 self)).

(** [BitAnd], [BitOr], [BitXor] for [Style] with [Style] and with
    [Styles], and for [Styles] with [Styles]. *)
Definition Style_bitand (a b : Style) : Style := MkStyle (Z.land (style_bits a) (style_bits b)).
Definition Style_bitor (a b : Style) : Style := MkStyle (Z.lor (style_bits a) (style_bits b)).
Definition Style_bitxor (a b : Style) : Style := MkStyle (Z.lxor (style_bits a) (style_bits b)).
Definition Style_bitand_styles (a : Style) (b : Styles) : Style :=
  MkStyle (Z.land (style_bits a) (Styles_to_u8 b)).
Definition Style_bitor_styles (a : Style) (b : Styles) : Style :=
  MkStyle (Z.lor (style_bits a) (Styles_to_u8 b)).
Definition Style_bitxor_styles (a : Style) (b : Styles) : Style :=
  MkStyle (Z.lxor (style_bits a) (Styles_to_u8 b)).
Definition Styles_bitand (a b : Styles) : Style := MkStyle (Z.land (Styles_to_u8 a) (Styles_to_u8 b)).
Definition Styles_bitor (a b : Styles) : Style := MkStyle (Z.lor (Styles_to_u8 a) (Styles_to_u8 b)).
Definition Styles_bitxor (a b : Styles) : Style := MkStyle (Z.lxor (Styles_to_u8 a) (Styles_to_u8 b)).

(** [Style::remove]: [self.0 &= !two.to_u8()]. *)
Definition Style_remove (self : Style) (two : Styles) : Style :=
  MkStyle (Z.land (style_bits self) (u8_not (Styles_to_u8 two))).

(** [impl Default for Style] and [impl From<Styles> for Style]. *)
Definition Style_default : Style := CLEAR.
Definition Style_from (value : Styles) : Style := MkStyle (Styles_to_u8 value).

(** [impl FromIterator<Styles> for Style]: [add] each item to the default. *)
Definition Style_from_iter (iter : list Styles) : Style :=
  fold_left Style_add iter Style_default.

(* ------------------------------------------------------------------ *)
(** ** Coloured strings and rendering ([lib.rs]) *)

(** [struct ColoredString]; the [Cow] text is its content. *)
Record ColoredString := MkColoredString {
  input : string;
  fgcolor : option Color;
  bgcolor : option Color;
  style : Style
}.

(** [ColoredString::from(s)]: default fields around the text. *)
Definition ColoredString_from (s : string) : ColoredString :=
  MkColoredString s Datatypes.None Datatypes.None CLEAR.

(** [Colorize::color] / [Colorize::on_color] / the style methods on a
    [ColoredString]. *)
Definition color (self : ColoredString) (c : Color) : ColoredString :=
  MkColoredString (input self) (Some c) (bgcolor self) (style self).
Definition on_color (self : ColoredString) (c : Color) : ColoredString :=
  MkColoredString (input self) (fgcolor self) (Some c) (style self).
Definition add_style (self : ColoredString) (st : Styles) : ColoredString :=
  MkColoredString (input self) (fgcolor self) (bgcolor self) (Style_add (style self) st).

(** [ColoredString::clear_fgcolor], [clear_bgcolor], [clear_style]; the
    [&mut self] receiver is returned updated. *)
Definition clear_fgcolor (self : ColoredString) : ColoredString :=
  MkColoredString (input self) Datatypes.None (bgcolor self) (style self).
Definition clear_bgcolor (self : ColoredString) : ColoredString :=
  MkColoredString (input self) (fgcolor self) Datatypes.None (style self).
Definition clear_style (self : ColoredString) : ColoredString :=
  MkColoredString (input self) (fgcolor self) (bgcolor self) Style_default.

(** [Colorize::clear] on a [ColoredString]: [Self { input: self.input,
    ..Self::default() }]; [normal] is [clear]. *)
Definition clear (self : ColoredString) : ColoredString :=
  MkColoredString (input self) Datatypes.None Datatypes.None CLEAR.

(** [Colorize::clear] on a [&str]. *)
Definition str_clear (self : string) : ColoredString :=
  MkColoredString self Datatypes.None Datatypes.None CLEAR.

(** [ColoredString::is_plain] *)
Definition is_plain (self : ColoredString) : bool :=
  match bgcolor self, fgcolor self with
  | Datatypes.None, Datatypes.None => Style_eqb (style self) CLEAR
  | _, _ => false
  end.

(** [ColoredString::has_colors], with the current level [lvl]. *)
Definition has_colors (lvl : ColorLevel.t) : bool :=
  negb (ColorLevel.eqb lvl ColorLevel.None).

(** [ColoredString::compute_style]: the string [res] is grown by
    appending, [has_wrote] records whether a field was written. *)
Definition compute_style (lvl : ColorLevel.t) (self : ColoredString) : string :=
  if negb (has_colors lvl) || is_plain self then ""
  else
    let res := String ESC "[" in
    let '(res, has_wrote) :=
      if Style_eqb (style self) CLEAR then (res, false)
      else (res ++ Style_to_str (style self), true) in
    let '(res, has_wrote) :=
      match bgcolor self with
      | Some bg =>
          let res := if has_wrote then res ++ ";" else res in
          (res ++ to_bg_str lvl bg, true)
      | Datatypes.None => (res, has_wrote)
      end in
    let res :=
      match fgcolor self with
      | Some fg =>
          let res := if has_wrote then res ++ ";" else res in
          res ++ to_fg_str lvl fg
      | Datatypes.None => res
      end in
    res ++ "m".

(** The reset sequence ["\x1B[0m"]. *)
Definition reset : string := String ESC "[0m".

(** [str::contains] for a string pattern. *)
Fixpoint str_contains (pat s : string) : bool :=
  prefix pat s ||
  match s with
  | EmptyString => false
  | String _ s' => str_contains pat s'
  end.

(** [str::match_indices] for a non-empty pattern: the start positions of
    the non-overlapping occurrences, searched from the left. [i] is the
    current position and [skip] the number of bytes still covered by the
    last occurrence found. *)
Fixpoint match_indices_from (pat s : string) (i skip : nat) : list nat :=
  match s with
  | EmptyString => []
  | String _ s' =>
      match skip with
      | S skip' => match_indices_from pat s' (S i) skip'
      | O =>
          if prefix pat s then i :: match_indices_from pat s' (S i) (length pat - 1)
          else match_indices_from pat s' (S i) 0
      end
  end.

Definition match_indices (pat s : string) : list nat := match_indices_from pat s 0 0.

(** [&s[a..b]] (the indices used here are always char boundaries: they
    delimit occurrences of an ASCII pattern) and [&s[a..]]. *)
Definition slice (a b : nat) (s : string) : string := substring a (b - a) s.
Definition slice_from (a : nat) (s : string) : string := substring a (length s - a) s.

(** The body of the [for (idx, _) in matches] loop of
    [escape_inner_reset_sequences]: state [(result, last_end)]. *)
Definition escape_step (input style : string) (st : string * nat) (idx : nat)
  : string * nat :=
  let '(result, last_end) := st in
  let result := result ++ slice last_end idx input in
  let result := result ++ reset in
  let result := result ++ style in
  (result, idx + length reset).

Definition escape_loop (input style : string) (matches : list nat) : string * nat :=
  fold_left (escape_step input style) matches ("", 0).

(** [ColoredString::escape_inner_reset_sequences] *)
Definition escape_inner_reset_sequences (lvl : ColorLevel.t) (self : ColoredString)
  : string :=
  if negb (has_colors lvl) || is_plain self then input self
  else if negb (str_contains reset (input self)) then input self
  else
    let style := compute_style lvl self in
    let matches := match_indices reset (input self) in
    let '(result, last_end) := escape_loop (input self) style matches in
    if Nat.ltb last_end (length (input self))
    then result ++ slice_from last_end (input self)
    else result.

(** [impl Display for ColoredString]: the string written by [fmt]. *)
Definition render (lvl : ColorLevel.t) (self : ColoredString) : string :=
  if negb (has_colors lvl) || is_plain self then input self
  else
    let escaped_input := escape_inner_reset_sequences lvl self in
    compute_style lvl self ++ escaped_input ++ reset.

(* ------------------------------------------------------------------ *)
(** ** Hex parsing ([parse_hex], [Colorize::hexcolor], [try_hexcolor]) *)

(** A computation that returns a value or panics. *)
Inductive Outcome (A : Type) := Ret (a : A) | Panic.
Arguments Ret {A} a.
Arguments Panic {A}.

Definition obind {A B} (m : Outcome A) (k : A -> Outcome B) : Outcome B :=
  match m with Ret a => k a | Panic => Panic end.

Notation "'let!' x := m 'in' k" := (obind m (fun x => k))
  (at level 200, x name, m at level 100, right associativity).

(** [str::is_char_boundary]: [0], the length, or an index whose byte is
    not a UTF-8 continuation byte ([b as i8 >= -0x40]). *)
Definition is_char_boundary (s : string) (i : nat) : bool :=
  match i with
  | O => true
  | _ =>
      match get i s with
      | Datatypes.None => Nat.eqb i (length s)
      | Some c => let n := nat_of_ascii c in Nat.ltb n 128 || Nat.leb 192 n
      end
  end.

(** [&s[a..b]], which panics unless [a <= b <= len] and both ends are
    char boundaries. *)
Definition str_index (s : string) (a b : nat) : Outcome string :=
  if Nat.leb a b && Nat.leb b (length s) && is_char_boundary s a && is_char_boundary s b
  then Ret (substring a (b - a) s)
  else Panic.

(** [str::strip_prefix('#').unwrap_or(s)] *)
Definition strip_hash (s : string) : string :=
  match s with
  | String c s' => if Ascii.eqb c "#"%char then s' else s
  | EmptyString => s
  end.

(** [char::to_digit(16)] of a byte read as a [char]. *)
Definition to_digit16 (c : ascii) : option nat :=
  let n := nat_of_ascii c in
  if Nat.leb 48 n && Nat.leb n 57 then Some (n - 48)
  else if Nat.leb 97 n && Nat.leb n 102 then Some (n - 87)
  else if Nat.leb 65 n && Nat.leb n 70 then Some (n - 55)
  else Datatypes.None.

(** The digit loop of [from_str_radix]: [checked_mul] / [checked_add] on
    [u8]. *)
Fixpoint digits_u8 (acc : nat) (s : string) : option nat :=
  match s with
  | EmptyString => Some acc
  | String c s' =>
      match to_digit16 c with
      | Datatypes.None => Datatypes.None
      | Some x =>
          let acc := acc * 16 + x in
          if Nat.ltb acc 256 then digits_u8 acc s' else Datatypes.None
      end
  end.

(** [u8::from_str_radix(src, 16).ok()]: empty input and a lone sign are
    errors, one leading ['+'] is accepted, ['-'] is not stripped for an
    unsigned type. *)
Definition u8_from_str_radix16 (src : string) : option nat :=
  match src with
  | EmptyString => Datatypes.None
  | String c rest =>
      if Ascii.eqb c "+"%char then
        match rest with
        | EmptyString => Datatypes.None
        | _ => digits_u8 0 rest
        end
      else if Ascii.eqb c "-"%char then
        match rest with
        | EmptyString => Datatypes.None
        | _ => digits_u8 0 src
        end
      else digits_u8 0 src
  end.

(** [fn parse_hex(s: &str) -> Option<Color>]; the [?] operator returns
    [None] at the first failed component, and each slice may panic. *)
Definition parse_hex (s0 : string) : Outcome (option Color) :=
  let s := strip_hash s0 in
  match length s with
  | 6 =>
      let! sr := str_index s 0 2 in
      match u8_from_str_radix16 sr with
      | Datatypes.None => Ret Datatypes.None
      | Some r =>
          let! sg := str_index s 2 4 in
          match u8_from_str_radix16 sg with
          | Datatypes.None => Ret Datatypes.None
          | Some g =>
              let! sb := str_index s 4 6 in
              match u8_from_str_radix16 sb with
              | Datatypes.None => Ret Datatypes.None
              | Some b => Ret (Some (TrueColor r g b))
              end
          end
      end
  | 3 =>
      let! sr := str_index s 0 1 in
      match u8_from_str_radix16 sr with
      | Datatypes.None => Ret Datatypes.None
      | Some r =>
          let! sg := str_index s 1 2 in
          match u8_from_str_radix16 sg with
          | Datatypes.None => Ret Datatypes.None
          | Some g =>
              let! sb := str_index s 2 3 in
              match u8_from_str_radix16 sb with
              | Datatypes.None => Ret Datatypes.None
              | Some b => Ret (Some (TrueColor (r * 17) (g * 17) (b * 17)))
              end
          end
      end
  | _ => Ret Datatypes.None
  end.

(** [Colorize::try_hexcolor]: [parse_hex(..).map(|color| self.color(color))]. *)
Definition try_hexcolor (self : ColoredString) (hex : string)
  : Outcome (option ColoredString) :=
  let! p := parse_hex hex in Ret (option_map (color self) p).

(** [Colorize::hexcolor]: [parse_hex(..).unwrap()], a panic on [None]. *)
Definition hexcolor (self : ColoredString) (hex : string) : Outcome ColoredString :=
  let! p := parse_hex hex in
  match p with Some c => Ret (color self c) | Datatypes.None => Panic end.

(** [Colorize::try_on_hexcolor] and [Colorize::on_hexcolor]: the same with
    [on_color]. *)
Definition try_on_hexcolor (self : ColoredString) (hex : string)
  : Outcome (option ColoredString) :=
  let! p := parse_hex hex in Ret (option_map (on_color self) p).

Definition on_hexcolor (self : ColoredString) (hex : string) : Outcome ColoredString :=
  let! p := parse_hex hex in
  match p with Some c => Ret (on_color self c) | Datatypes.None => Panic end.

(** The accepted inputs as the spec describes them: an optional leading
    ['#'], then exactly 3 or 6 hexadecimal digits. *)
Fixpoint all_hex (s : string) : bool :=
  match s with
  | EmptyString => true
  | String c s' => match to_digit16 c with Some _ => all_hex s' | _ => false end
  end.

Definition spec_valid_hex (s0 : string) : bool :=
  let s := strip_hash s0 in
  (Nat.eqb (length s) 3 || Nat.eqb (length s) 6) && all_hex s.

(* ------------------------------------------------------------------ *)
(** ** Definitions used to state the claims and further properties *)

(** Well-formedness that the Rust types give for free: [u8] payloads. *)
Definition Color_wf (c : Color) : Prop :=
  match c with
  | Ansi256 idx => idx < 256
  | TrueColor r g b => r < 256 /\ g < 256 /\ b < 256
  | _ => True
  end.

(** The RGB expansion used by [fallback_to_ansi16]. *)
Definition expand_rgb (c : Color) : option (nat * nat * nat) :=
  match c with
  | Ansi256 idx => Some (ansi256_to_rgb idx)
  | TrueColor r g b => Some (r, g, b)
  | _ => Datatypes.None
  end.

(** One step of a first-minimum search over a list: the loop body of
    [fallback_to_ansi16] and [fallback_to_ansi256] with the distance [f]
    and the value [out] kept for an entry. *)
Definition argmin_step {A B} (f : A -> Z) (out : A -> B) (st : Z * B) (e : A) : Z * B :=
  if (f e <? fst st)%Z then (f e, out e) else st.

(** Entry [k] of the 16-colour table. *)
Definition ansi16_entry (k : nat) : nat * nat * nat * Color :=
  nth k ANSI_16_COLORS (0, 0, 0, Black).

(** The distance of a table entry to [(r, g, b)]. *)
Definition dist16 (r g b : nat) (e : nat * nat * nat * Color) : Z :=
  let '(cr, cg, cb, _) := e in distance_sq r g b cr cg cb.

(** The codes of the set attributes as the spec lists them: in the order
    Bold, Dimmed, Underline, Reversed, Italic, Blink, Hidden,
    Strikethrough, with the SGR numbers 1, 2, 4, 7, 3, 5, 8, 9. *)
Definition spec_style_codes (s : Style) : string :=
  join ";" (map snd (filter (fun p => Style_contains s (fst p))
    [(Bold, "1"); (Dimmed, "2"); (Underline, "4"); (Reversed, "7");
     (Italic, "3"); (Blink, "5"); (Hidden, "8"); (Strikethrough, "9")])).

(** The UTF-8 bytes of ["aé123"]. *)
Definition a_eacute_123 : string :=
  String "a" (String (ascii_of_nat 195) (String (ascii_of_nat 169) "123")).

(** Well-formedness of an optional colour. *)
Definition opt_wf (o : option Color) : Prop :=
  match o with Some c => Color_wf c | Datatypes.None => True end.

(** The SGR parameters as the spec lists them: the style codes when the
    style is not [Clear], then the background code, then the foreground
    code, each only when present. *)
Definition sgr_params (lvl : ColorLevel.t) (cs : ColoredString) : list string :=
  (if Style_eqb (style cs) CLEAR then [] else [Style_to_str (style cs)]) ++
  (match bgcolor cs with Some c => [to_bg_str lvl c] | Datatypes.None => [] end) ++
  (match fgcolor cs with Some c => [to_fg_str lvl c] | Datatypes.None => [] end).

(** The rewrite as the spec describes it: scanning from the left, after
    every occurrence of the reset sequence the preamble [pre] is
    inserted; all other bytes are kept. *)
Fixpoint spec_insert_after_resets (pre s : string) : string :=
  match s with
  | EmptyString => EmptyString
  | String c s' =>
      match s' with
      | String _ (String _ (String _ rest)) =>
          if prefix reset s then reset ++ pre ++ spec_insert_after_resets pre rest
          else String c (spec_insert_after_resets pre s')
      | _ => String c (spec_insert_after_resets pre s')
      end
  end.

(** Equality of style switches. *)
Definition Styles_eqb (a b : Styles) : bool :=
  match a, b with
  | Clear, Clear | Bold, Bold | Dimmed, Dimmed | Underline, Underline
  | Reversed, Reversed | Italic, Italic | Blink, Blink | Hidden, Hidden
  | Strikethrough, Strikethrough => true
  | _, _ => false
  end.

(** The bit a style switch stands for; [Clear] has none. *)
Definition Styles_bit (s : Styles) : option nat :=
  match s with
  | Clear => Datatypes.None
  | Bold => Some 0 | Underline => Some 1 | Reversed => Some 2 | Italic => Some 3
  | Blink => Some 4 | Hidden => Some 5 | Dimmed => Some 6 | Strikethrough => Some 7
  end.

(** The distance of palette index [idx] to [(r, g, b)], as in
    [fallback_to_ansi256]. *)
Definition dist256 (r g b idx : nat) : Z :=
  let '(cr, cg, cb) := ansi256_to_rgb idx in distance_sq r g b cr cg cb.

(** The foreground and background codes of the sixteen named colours. *)
Definition FG16_CODES : list string :=
  ["30"; "31"; "32"; "33"; "34"; "35"; "36"; "37";
   "90"; "91"; "92"; "93"; "94"; "95"; "96"; "97"].
Definition BG16_CODES : list string :=
  ["40"; "41"; "42"; "43"; "44"; "45"; "46"; "47";
   "100"; "101"; "102"; "103"; "104"; "105"; "106"; "107"].

(** A string of six or three characters. *)
Definition str6 (c1 c2 c3 c4 c5 c6 : ascii) : string :=
  String c1 (String c2 (String c3 (String c4 (String c5 (String c6 ""))))).
Definition str3 (c1 c2 c3 : ascii) : string := String c1 (String c2 (String c3 "")).

(** [Option::unwrap] in the panic monad. *)
Definition unwrap {A} (o : option A) : Outcome A :=
  match o with Some x => Ret x | Datatypes.None => Panic end.

(** The tail of [escape_inner_reset_sequences] after the loop. *)
Definition escape_finish (input : string) (st : string * nat) : string :=
  let '(result, last_end) := st in
  if Nat.ltb last_end (length input) then result ++ slice_from last_end input else result.

Example ex_fg : to_fg_str ColorLevel.Ansi16 (TrueColor 255 0 0) = "91".
Proof. vm_compute. reflexivity. Qed.
Example ex_fg2 : to_fg_str ColorLevel.Ansi256 (TrueColor 255 0 0) = "38;5;9".
Proof. vm_compute. reflexivity. Qed.
Example ex_bg : to_bg_str ColorLevel.Ansi16 (Ansi256 196) = "101".
Proof. vm_compute. reflexivity. Qed.

Example ex_render :
  render ColorLevel.TrueColor (add_style (color (ColoredString_from "x") Red) Bold)
  = String ESC "[1;31mx" ++ reset.
Proof. vm_compute. reflexivity. Qed.
Example ex_nest :
  render ColorLevel.TrueColor (add_style (ColoredString_from ("a" ++ reset ++ "b")) Bold)
  = String ESC "[1ma" ++ reset ++ String ESC "[1mb" ++ reset.
Proof. vm_compute. reflexivity. Qed.

Example ex_hex1 : parse_hex "f09" = parse_hex "ff0099".
Proof. vm_compute. reflexivity. Qed.
Example ex_hex2 : parse_hex "zz0099" = Ret Datatypes.None.
Proof. vm_compute. reflexivity. Qed.
Example ex_hex3 : parse_hex "+f+f+f" = Ret (Some (TrueColor 15 15 15)).
Proof. vm_compute. reflexivity. Qed.
Example ex_hex4 : parse_hex (String "a" (String (ascii_of_nat 195) (String (ascii_of_nat 169) "123"))) = Panic.
Proof. vm_compute. reflexivity. Qed.

(* ------------------------------------------------------------------ *)
(** ** Auxiliary facts *)

Lemma fold_left_ext_step {A B} (f g : A -> B -> A) (l : list B) (a : A) :
  (forall x y, f x y = g x y) -> fold_left f l a = fold_left g l a.
Proof.
  intros Hfg. revert a. induction l as [|y l IH]; intros a; simpl; [reflexivity|].
  rewrite Hfg. apply IH.
Qed.

Section ArgMin.
Variables (A B : Type) (f : A -> Z) (out : A -> B).

Lemma argmin_fold (l : list A) (m0 : Z) (b0 : B) (d : A) :
  l <> [] -> (forall e, In e l -> (f e < m0)%Z) ->
  exists k, k < List.length l /\
    fold_left (argmin_step f out) l (m0, b0) = (f (nth k l d), out (nth k l d)) /\
    (forall j, j < List.length l -> (f (nth k l d) <= f (nth j l d))%Z) /\
    (forall j, j < k -> (f (nth k l d) < f (nth j l d))%Z).
Proof.
  induction l as [|e l IH] using rev_ind; intros Hne Hlt; [congruence|].
  rewrite fold_left_app, length_app. simpl.
  destruct l as [|x l'] eqn:El.
  - simpl. unfold argmin_step. simpl.
    assert (He : (f e < m0)%Z) by (apply Hlt; simpl; auto).
    apply Z.ltb_lt in He. rewrite He.
    exists 0. repeat split; try lia; intros j Hj; try lia.
    assert (j = 0) by lia. subst. lia.
  - rewrite <- El in *.
    destruct IH as (k & Hk & Hf & Hmin & Hfirst).
    { subst; discriminate. }
    { intros y Hy. apply Hlt, in_or_app. auto. }
    rewrite Hf. unfold argmin_step at 1. simpl.
    destruct (f e <? f (nth k l d))%Z eqn:E.
    + apply Z.ltb_lt in E.
      exists (List.length l).
      rewrite app_nth2 by lia. rewrite Nat.sub_diag. simpl.
      repeat split; try lia.
      * intros j Hj. destruct (Nat.eq_dec j (List.length l)) as [->|Hne'].
        -- rewrite app_nth2, Nat.sub_diag by lia. simpl. lia.
        -- rewrite app_nth1 by lia. specialize (Hmin j ltac:(lia)). lia.
      * intros j Hj. rewrite app_nth1 by lia. specialize (Hmin j Hj). lia.
    + apply Z.ltb_ge in E.
      exists k. rewrite app_nth1 by lia.
      repeat split; try lia.
      * intros j Hj. destruct (Nat.eq_dec j (List.length l)) as [->|Hne'].
        -- rewrite app_nth2, Nat.sub_diag by lia. simpl. lia.
        -- rewrite app_nth1 by lia. apply Hmin. lia.
      * intros j Hj. rewrite app_nth1 by lia. apply Hfirst. lia.
Qed.
End ArgMin.

Lemma ansi16_step_argmin r g b st e :
  ansi16_step r g b st e = argmin_step (dist16 r g b) snd st e.
Proof.
  destruct st as [m c]. destruct e as [[[cr cg] cb] col].
  unfold ansi16_step, argmin_step, dist16. simpl.
  destruct (_ <? m)%Z; reflexivity.
Qed.

(** Every entry of the 16-colour table is a named colour. *)
Lemma ANSI_16_COLORS_named : forall e, In e ANSI_16_COLORS -> is_named (snd e) = true.
Proof. intros e H. simpl in H. repeat (destruct H as [<-|H]; [reflexivity|]). contradiction. Qed.

Lemma ANSI_16_COLORS_u8 : forall cr cg cb col,
  In (cr, cg, cb, col) ANSI_16_COLORS -> cr < 256 /\ cg < 256 /\ cb < 256.
Proof.
  intros cr cg cb col H. simpl in H.
  repeat (destruct H as [H|H]; [injection H; intros; subst; lia|]). contradiction.
Qed.

(** The 16-colour search ends with its initial colour or with a table entry. *)
Lemma fold16_cases r g b (l : list (nat * nat * nat * Color)) m c :
  (forall e, In e l -> is_named (snd e) = true) ->
  snd (fold_left (ansi16_step r g b) l (m, c)) = c \/
  is_named (snd (fold_left (ansi16_step r g b) l (m, c))) = true.
Proof.
  revert m c. induction l as [|e l IH]; intros m c Hl; simpl; [auto|].
  destruct e as [[[cr cg] cb] col]. simpl.
  destruct (_ <? m)%Z.
  - destruct (IH (distance_sq r g b cr cg cb) col) as [H|H].
    + intros; apply Hl; simpl; auto.
    + right. rewrite H. apply (Hl (cr, cg, cb, col)). simpl. auto.
    + auto.
  - apply IH. intros; apply Hl; simpl; auto.
Qed.

Lemma fallback_to_ansi16_named c : is_named c = true -> fallback_to_ansi16 c = c.
Proof. destruct c; simpl; intros H; try discriminate; reflexivity. Qed.

Lemma fallback_to_ansi16_cases c :
  fallback_to_ansi16 c = c \/ is_named (fallback_to_ansi16 c) = true.
Proof.
  destruct c; try (left; reflexivity); unfold fallback_to_ansi16; cbv beta iota zeta;
    [destruct (ansi256_to_rgb idx) as [[r g] b]|];
    apply fold16_cases, ANSI_16_COLORS_named.
Qed.

(** All 256 palette expansions have [u8] components. *)
Lemma ansi256_to_rgb_u8 : forall idx, idx < 256 ->
  forall r g b, ansi256_to_rgb idx = (r, g, b) -> r < 256 /\ g < 256 /\ b < 256.
Proof.
  assert (Hall : forallb (fun idx => let '(r, g, b) := ansi256_to_rgb idx in
                   Nat.ltb r 256 && Nat.ltb g 256 && Nat.ltb b 256) (seq 0 256) = true)
    by (vm_compute; reflexivity).
  intros idx Hidx r g b E.
  rewrite forallb_forall in Hall.
  specialize (Hall idx (proj2 (in_seq 256 0 idx) ltac:(lia))).
  rewrite E in Hall. apply andb_prop in Hall as [Hall Hb]. apply andb_prop in Hall as [Hr Hg].
  apply Nat.ltb_lt in Hr, Hg, Hb. auto.
Qed.

Lemma distance_sq_lt_u32 r g b cr cg cb :
  r < 256 -> g < 256 -> b < 256 -> cr < 256 -> cg < 256 -> cb < 256 ->
  (distance_sq r g b cr cg cb < u32_MAX)%Z.
Proof.
  intros. unfold distance_sq, u32_MAX.
  assert (Hsq : forall x y, x < 256 -> y < 256 -> ((Z.of_nat x - Z.of_nat y) ^ 2 <= 65025)%Z).
  { intros x y Hx Hy. rewrite Z.pow_2_r.
    assert (-255 <= Z.of_nat x - Z.of_nat y <= 255)%Z by lia. nia. }
  pose proof (Hsq r cr ltac:(lia) ltac:(lia)).
  pose proof (Hsq g cg ltac:(lia) ltac:(lia)).
  pose proof (Hsq b cb ltac:(lia) ltac:(lia)).
  lia.
Qed.

Lemma fallback_to_ansi16_expand c r g b :
  expand_rgb c = Some (r, g, b) ->
  fallback_to_ansi16 c = snd (fold_left (ansi16_step r g b) ANSI_16_COLORS (u32_MAX, c)).
Proof.
  intros H. destruct c; try discriminate; cbn [expand_rgb] in H; injection H as E;
    unfold fallback_to_ansi16; cbv beta iota zeta.
  - rewrite E. reflexivity.
  - subst. reflexivity.
Qed.

Lemma expand_rgb_u8 c r g b :
  Color_wf c -> expand_rgb c = Some (r, g, b) -> r < 256 /\ g < 256 /\ b < 256.
Proof.
  intros Hwf H. destruct c; try discriminate; cbn [expand_rgb Color_wf] in H, Hwf;
    injection H; intros.
  - eapply ansi256_to_rgb_u8; eauto.
  - subst. exact Hwf.
Qed.

(* ------------------------------------------------------------------ *)
(** ** Claims about colours *)

(** C1 (Ansi256 codes under the Ansi16 level). [Color::to_fg_str] renders
    an [Ansi256] colour as [38;5;idx] at every level, also [Ansi16]; its
    sibling [to_bg_str] downgrades it there. At index 196 the foreground
    code is [38;5;196], not the [91] of the downgraded colour, while the
    background code is the downgraded one. *)
Lemma C1_to_fg_str_ansi256_not_downgraded :
  (forall lvl idx, to_fg_str lvl (Ansi256 idx) = "38;5;" ++ dec idx) /\
  to_fg_str ColorLevel.Ansi16 (Ansi256 196) = "38;5;196" /\
  fallback_to_ansi16 (Ansi256 196) = BrightRed /\
  to_fg_str ColorLevel.Ansi16 (fallback_to_ansi16 (Ansi256 196)) = "91" /\
  to_bg_str ColorLevel.Ansi16 (Ansi256 196)
    = to_bg_str ColorLevel.Ansi16 (fallback_to_ansi16 (Ansi256 196)).
Proof.
  split; [intros; reflexivity|].
  vm_compute. repeat split.
Qed.

(** C6 (palette expansion). For every [u8] index, [ansi256_to_rgb] gives
    the 16-colour table entry below 16, the cube colour of the base-6
    digits of [idx - 16] over the steps 0, 95, 135, 175, 215, 255 from 16
    to 231, and the gray [8 + 10 * (idx - 232)] from 232; in particular
    16, 231, 232 and 255 give (0,0,0), (255,255,255), (8,8,8) and
    (238,238,238). *)
Theorem C6_ansi256_to_rgb_palette : forall idx r g b,
  idx < 256 -> ansi256_to_rgb idx = (r, g, b) ->
  (idx < 16 -> exists c, nth idx ANSI_16_COLORS (0, 0, 0, Black) = (r, g, b, c)) /\
  (16 <= idx <= 231 ->
     exists dr dg db, dr < 6 /\ dg < 6 /\ db < 6 /\
       idx - 16 = 36 * dr + 6 * dg + db /\
       r = nth dr [0; 95; 135; 175; 215; 255] 0 /\
       g = nth dg [0; 95; 135; 175; 215; 255] 0 /\
       b = nth db [0; 95; 135; 175; 215; 255] 0) /\
  (232 <= idx -> r = 8 + 10 * (idx - 232) /\ g = r /\ b = r) /\
  ansi256_to_rgb 16 = (0, 0, 0) /\ ansi256_to_rgb 231 = (255, 255, 255) /\
  ansi256_to_rgb 232 = (8, 8, 8) /\ ansi256_to_rgb 255 = (238, 238, 238).
Proof.
  intros idx r g b Hidx E.
  split; [|split; [|split]].
  - intros Hlt. unfold ansi256_to_rgb in E.
    apply Nat.ltb_lt in Hlt. rewrite Hlt in E.
    destruct (at_idx (0, 0, 0, Black) ANSI_16_COLORS idx) as [[[r' g'] b'] c] eqn:Ent.
    injection E; intros; subst. exists c. exact Ent.
  - intros [Hlo Hhi]. unfold ansi256_to_rgb in E.
    assert (H1 : Nat.ltb idx 16 = false) by (apply Nat.ltb_ge; lia).
    assert (H2 : Nat.leb idx 231 = true) by (apply Nat.leb_le; lia).
    rewrite H1, H2 in E. injection E; intros Eb Eg Er.
    set (n := idx - 16) in *.
    exists (n / 36), (n mod 36 / 6), (n mod 36 mod 6).
    assert (Hn : n < 216) by (unfold n; lia).
    pose proof (Nat.div_mod_eq n 36) as D1.
    pose proof (Nat.div_mod_eq (n mod 36) 6) as D2.
    pose proof (Nat.mod_upper_bound n 36 ltac:(lia)) as M1.
    pose proof (Nat.mod_upper_bound (n mod 36) 6 ltac:(lia)) as M2.
    assert (Q1 : n / 36 < 6) by (apply Nat.Div0.div_lt_upper_bound; lia).
    assert (Q2 : n mod 36 / 6 < 6) by (apply Nat.Div0.div_lt_upper_bound; lia).
    repeat split; try lia; subst; reflexivity.
  - intros Hge. unfold ansi256_to_rgb in E.
    assert (H1 : Nat.ltb idx 16 = false) by (apply Nat.ltb_ge; lia).
    assert (H2 : Nat.leb idx 231 = false) by (apply Nat.leb_gt; lia).
    rewrite H1, H2 in E. injection E; intros; subst. repeat split; lia.
  - vm_compute. repeat split.
Qed.

Lemma C6_ansi256_to_rgb_palette_witness :
  100 < 256 /\ ansi256_to_rgb 100 = (135, 135, 0) /\
  exists dr dg db, dr < 6 /\ dg < 6 /\ db < 6 /\
    100 - 16 = 36 * dr + 6 * dg + db /\
    135 = nth dr [0; 95; 135; 175; 215; 255] 0 /\
    135 = nth dg [0; 95; 135; 175; 215; 255] 0 /\
    0 = nth db [0; 95; 135; 175; 215; 255] 0.
Proof.
  split; [lia|]. split; [reflexivity|].
  apply (proj1 (proj2 (C6_ansi256_to_rgb_palette 100 135 135 0 ltac:(lia) eq_refl))).
  lia.
Defined.

(** C7 (nearest 16-colour). For a well-formed [Ansi256] or [TrueColor]
    colour, [fallback_to_ansi16] returns the colour of the entry [k] of
    the table (in the order Black, Red, ..., White, then the bright ones)
    whose squared RGB distance to the RGB expansion is minimal, no earlier
    entry having the same distance; a named colour is returned unchanged. *)
Theorem C7_fallback_to_ansi16_nearest : forall c,
  Color_wf c ->
  map snd ANSI_16_COLORS =
    [Black; Red; Green; Yellow; Blue; Magenta; Cyan; White;
     BrightBlack; BrightRed; BrightGreen; BrightYellow;
     BrightBlue; BrightMagenta; BrightCyan; BrightWhite] /\
  (is_named c = true -> fallback_to_ansi16 c = c) /\
  (forall r g b, expand_rgb c = Some (r, g, b) ->
     exists k, k < 16 /\
       fallback_to_ansi16 c = snd (ansi16_entry k) /\
       (forall j, j < 16 ->
          (dist16 r g b (ansi16_entry k)
           <= dist16 r g b (ansi16_entry j))%Z) /\
       (forall j, j < k ->
          (dist16 r g b (ansi16_entry k)
           < dist16 r g b (ansi16_entry j))%Z)).
Proof.
  intros c Hwf. split; [reflexivity|]. split; [apply fallback_to_ansi16_named|].
  intros r g b Hexp.
  destruct (expand_rgb_u8 c r g b Hwf Hexp) as (Hr & Hg & Hb).
  rewrite (fallback_to_ansi16_expand c r g b Hexp).
  rewrite (fold_left_ext_step _ _ _ _ (ansi16_step_argmin r g b)).
  destruct (argmin_fold _ _ (dist16 r g b) snd ANSI_16_COLORS u32_MAX c (0, 0, 0, Black))
    as (k & Hk & Hf & Hmin & Hfirst).
  - discriminate.
  - intros [[[cr cg] cb] col] Hin. simpl.
    destruct (ANSI_16_COLORS_u8 cr cg cb col Hin) as (? & ? & ?).
    apply distance_sq_lt_u32; assumption.
  - exists k. rewrite Hf. simpl in Hk. auto.
Qed.

Lemma C7_fallback_to_ansi16_nearest_witness :
  Color_wf (TrueColor 166 227 161) /\
  exists k, k < 16 /\
    fallback_to_ansi16 (TrueColor 166 227 161) = snd (ansi16_entry k) /\
    (forall j, j < 16 ->
       (dist16 166 227 161 (ansi16_entry k) <= dist16 166 227 161 (ansi16_entry j))%Z) /\
    (forall j, j < k ->
       (dist16 166 227 161 (ansi16_entry k) < dist16 166 227 161 (ansi16_entry j))%Z).
Proof.
  assert (Hwf : Color_wf (TrueColor 166 227 161)) by (simpl; lia).
  split; [exact Hwf|].
  apply (proj2 (proj2 (C7_fallback_to_ansi16_nearest _ Hwf)) 166 227 161 eq_refl).
Defined.

(** C9 (idempotent downgrade). For every [TrueColor] colour, downgrading
    to 16 colours twice gives the same colour as downgrading once. *)
Theorem C9_fallback_to_ansi16_idempotent : forall r g b,
  fallback_to_ansi16 (fallback_to_ansi16 (TrueColor r g b))
  = fallback_to_ansi16 (TrueColor r g b).
Proof.
  intros r g b.
  destruct (fallback_to_ansi16_cases (TrueColor r g b)) as [H|H].
  - rewrite H. exact H.
  - apply fallback_to_ansi16_named. exact H.
Qed.

(* ------------------------------------------------------------------ *)
(** ** Claims about style flags *)

(** C10 ([contains] on [Clear]). [Style::contains] is a subset test of
    bit masks and [Styles::Clear] has mask 0, so every style, empty or
    not, contains [Clear]. *)
Theorem C10_contains_clear_always : forall s, Style_contains s Clear = true.
Proof. intros [bits]. unfold Style_contains. simpl. rewrite Z.land_0_r. reflexivity. Qed.

Lemma u8_style_cases (P : Style -> bool) :
  forallb (fun n => P (MkStyle (Z.of_nat n))) (seq 0 256) = true ->
  forall s, (0 <= style_bits s < 256)%Z -> P s = true.
Proof.
  intros Hall [z] Hz. simpl in Hz.
  rewrite forallb_forall in Hall.
  assert (Hin : In (Z.to_nat z) (seq 0 256)).
  { apply in_seq. split; [lia|]. apply Nat.lt_le_trans with (Z.to_nat 256); [|reflexivity].
    apply Z2Nat.inj_lt; lia. }
  specialize (Hall _ Hin).
  rewrite Z2Nat.id in Hall by lia. exact Hall.
Qed.

(** C8 ([Style::to_str]). For every [u8] style, [Style::to_str] is the
    [;]-joined list of the SGR codes of its set attributes in the order
    Bold, Dimmed, Underline, Reversed, Italic, Blink, Hidden,
    Strikethrough; the [Clear] style gives the empty string. *)
Theorem C8_style_to_str_codes : forall s,
  (0 <= style_bits s < 256)%Z ->
  Style_to_str s = spec_style_codes s /\
  (style_bits s = 0%Z -> Style_to_str s = "").
Proof.
  intros s Hs. split.
  - apply String.eqb_eq.
    apply (u8_style_cases (fun s => String.eqb (Style_to_str s) (spec_style_codes s)));
      [vm_compute; reflexivity | exact Hs].
  - destruct s as [z]. simpl. intros ->. reflexivity.
Qed.

Lemma C8_style_to_str_codes_witness :
  (0 <= style_bits (MkStyle 137) < 256)%Z /\
  Style_to_str (MkStyle 137) = spec_style_codes (MkStyle 137) /\
  spec_style_codes (MkStyle 137) = "1;3;9".
Proof.
  split; [simpl; lia|]. split.
  - apply (proj1 (C8_style_to_str_codes (MkStyle 137) ltac:(simpl; lia))).
  - vm_compute. reflexivity.
Defined.

(* ------------------------------------------------------------------ *)
(** ** Claims about hex parsing and rendering *)

(** C2 (hex parsing). [parse_hex] accepts ["+f+f+f"], which is not three
    or six hex digits: [u8::from_str_radix] takes a leading ['+'] in each
    two-byte slice, so [try_hexcolor] returns a colour and [hexcolor]
    does not panic. On ["aé123"] (six bytes, not hex) the slice [s[0..2]]
    cuts the two-byte [é] and [try_hexcolor] panics instead of returning
    no value. *)
Theorem C2_parse_hex_accepts_plus_and_panics_on_utf8 :
  spec_valid_hex "+f+f+f" = false /\
  parse_hex "+f+f+f" = Ret (Some (TrueColor 15 15 15)) /\
  try_hexcolor (ColoredString_from "x") "+f+f+f"
    = Ret (Some (color (ColoredString_from "x") (TrueColor 15 15 15))) /\
  hexcolor (ColoredString_from "x") "+f+f+f"
    = Ret (color (ColoredString_from "x") (TrueColor 15 15 15)) /\
  spec_valid_hex a_eacute_123 = false /\
  parse_hex a_eacute_123 = Panic /\
  try_hexcolor (ColoredString_from "x") a_eacute_123 = Panic.
Proof. vm_compute. repeat split. Qed.

(** C5 (no escape bytes when disabled or plain). When the level is
    Disabled or the value is plain, rendering returns the text itself. *)
Theorem C5_render_disabled_or_plain : forall lvl cs,
  lvl = ColorLevel.None \/ is_plain cs = true -> render lvl cs = input cs.
Proof.
  intros lvl cs [->|Hp]; unfold render.
  - reflexivity.
  - rewrite Hp, orb_true_r. reflexivity.
Qed.

Lemma C5_render_disabled_or_plain_witness :
  (ColorLevel.TrueColor = ColorLevel.None \/
   is_plain (ColoredString_from (String ESC "[1mA")) = true) /\
  render ColorLevel.TrueColor (ColoredString_from (String ESC "[1mA"))
  = String ESC "[1mA".
Proof.
  assert (H : ColorLevel.TrueColor = ColorLevel.None \/
              is_plain (ColoredString_from (String ESC "[1mA")) = true)
    by (right; reflexivity).
  split; [exact H | apply (C5_render_disabled_or_plain _ _ H)].
Defined.

(* ------------------------------------------------------------------ *)
(** ** Facts about the preamble *)

Lemma str_app_assoc (x y z : string) : (x ++ y) ++ z = x ++ (y ++ z).
Proof. induction x as [|c x IH]; simpl; [reflexivity|]. rewrite IH. reflexivity. Qed.

Lemma str_cons_app (c : ascii) (x y : string) : String c x ++ y = String c (x ++ y).
Proof. reflexivity. Qed.

Lemma str_app_nil_l (x : string) : "" ++ x = x.
Proof. reflexivity. Qed.

Lemma str_app_nil_r (x : string) : x ++ "" = x.
Proof. induction x as [|c x IH]; simpl; [reflexivity|]. rewrite IH. reflexivity. Qed.

(** For a [u8] colour the 16-colour search always picks a table entry. *)
Lemma fallback_to_ansi16_wf_named c :
  Color_wf c -> is_named (fallback_to_ansi16 c) = true.
Proof.
  intros Hwf. destruct (expand_rgb c) as [[[r g] b]|] eqn:E.
  - destruct (expand_rgb_u8 c r g b Hwf E) as (Hr & Hg & Hb).
    rewrite (fallback_to_ansi16_expand c r g b E).
    rewrite (fold_left_ext_step _ _ _ _ (ansi16_step_argmin r g b)).
    destruct (argmin_fold _ _ (dist16 r g b) snd ANSI_16_COLORS u32_MAX c (0, 0, 0, Black))
      as (k & Hk & Hf & _).
    + discriminate.
    + intros [[[cr cg] cb] col] Hin. simpl.
      destruct (ANSI_16_COLORS_u8 cr cg cb col Hin) as (? & ? & ?).
      apply distance_sq_lt_u32; assumption.
    + rewrite Hf. apply ANSI_16_COLORS_named, nth_In, Hk.
  - destruct c; try discriminate; reflexivity.
Qed.

Lemma to_fg_str_nonempty lvl c : Color_wf c -> to_fg_str lvl c <> "".
Proof.
  intros Hwf.
  destruct c as [ | | | | | | | | | | | | | | | | idx | r g b ];
    [intros H; discriminate H .. |].
  destruct lvl; [intros H; discriminate H | | intros H; discriminate H | intros H; discriminate H].
  change (to_fg_str ColorLevel.Ansi16 (TrueColor r g b))
    with (fg_str_fuel 2 ColorLevel.Ansi16 (fallback_to_ansi16 (TrueColor r g b))).
  pose proof (fallback_to_ansi16_wf_named _ Hwf) as Hn.
  destruct (fallback_to_ansi16 (TrueColor r g b)); try discriminate Hn; intros H; discriminate H.
Qed.

Lemma to_bg_str_nonempty lvl c : Color_wf c -> to_bg_str lvl c <> "".
Proof.
  intros Hwf.
  destruct c as [ | | | | | | | | | | | | | | | | idx | r g b ];
    [intros H; discriminate H .. | |].
  - destruct lvl; [intros H; discriminate H | | intros H; discriminate H | intros H; discriminate H].
    change (to_bg_str ColorLevel.Ansi16 (Ansi256 idx))
      with (bg_str_fuel 2 ColorLevel.Ansi16 (fallback_to_ansi16 (Ansi256 idx))).
    pose proof (fallback_to_ansi16_wf_named _ Hwf) as Hn.
    destruct (fallback_to_ansi16 (Ansi256 idx)); try discriminate Hn; intros H; discriminate H.
  - destruct lvl; [intros H; discriminate H | | intros H; discriminate H | intros H; discriminate H].
    change (to_bg_str ColorLevel.Ansi16 (TrueColor r g b))
      with (bg_str_fuel 2 ColorLevel.Ansi16 (fallback_to_ansi16 (TrueColor r g b))).
    pose proof (fallback_to_ansi16_wf_named _ Hwf) as Hn.
    destruct (fallback_to_ansi16 (TrueColor r g b)); try discriminate Hn; intros H; discriminate H.
Qed.

Lemma Style_to_str_nonempty s :
  (0 <= style_bits s < 256)%Z -> Style_eqb s CLEAR = false -> Style_to_str s <> "".
Proof.
  intros Hs Hc.
  pose proof (u8_style_cases
    (fun s => Style_eqb s CLEAR || negb (String.eqb (Style_to_str s) ""))
    ltac:(vm_compute; reflexivity) s Hs) as H.
  cbv beta in H. rewrite Hc in H. simpl in H. apply negb_true_iff, String.eqb_neq in H. exact H.
Qed.

(** C3 (escape sequence format). A non-plain coloured string with [u8]
    fields rendered at an enabled level is [ESC '[' params 'm'], the
    rewritten text and [ESC "[0m"], where [params] joins with [;] the
    style codes, the background code and the foreground code that are
    present, in that order, none of them empty; "x" in red and bold
    under TrueColor renders as ["\x1B[1;31mx\x1B[0m"]. *)
Theorem C3_render_format : forall lvl cs,
  lvl <> ColorLevel.None -> is_plain cs = false ->
  (0 <= style_bits (style cs) < 256)%Z -> opt_wf (fgcolor cs) -> opt_wf (bgcolor cs) ->
  render lvl cs
    = String ESC ("[" ++ join ";" (sgr_params lvl cs) ++ "m")
      ++ escape_inner_reset_sequences lvl cs ++ reset /\
  Forall (fun p => p <> "") (sgr_params lvl cs) /\
  render ColorLevel.TrueColor (add_style (color (ColoredString_from "x") Red) Bold)
    = String ESC "[1;31mx" ++ String ESC "[0m".
Proof.
  intros lvl cs Hlvl Hp Hs Hfg Hbg.
  assert (Hc : has_colors lvl = true)
    by (destruct lvl; [exfalso; apply Hlvl; reflexivity | reflexivity ..]).
  split; [|split; [|vm_compute; reflexivity]].
  - unfold render, compute_style. rewrite Hc, Hp. cbv beta iota zeta. simpl negb. simpl orb.
    unfold sgr_params.
    destruct (Style_eqb (style cs) CLEAR) eqn:Es;
      destruct (bgcolor cs) as [bg|] eqn:Eb; destruct (fgcolor cs) as [fg|] eqn:Ef;
      cbn [List.app join String.concat];
      repeat first [rewrite str_cons_app | rewrite str_app_assoc | rewrite str_app_nil_l];
      try reflexivity.
  - unfold sgr_params.
    destruct (Style_eqb (style cs) CLEAR) eqn:Es;
      destruct (bgcolor cs) as [bg|] eqn:Eb; destruct (fgcolor cs) as [fg|] eqn:Ef;
      cbn [List.app]; simpl in Hfg, Hbg;
      repeat constructor;
      first [ apply Style_to_str_nonempty; assumption
            | apply to_bg_str_nonempty; assumption
            | apply to_fg_str_nonempty; assumption ].
Qed.

Lemma C3_render_format_witness :
  render ColorLevel.Ansi256
    (on_color (add_style (color (ColoredString_from "x") (TrueColor 255 0 0)) Italic) Blue)
  = String ESC ("[" ++ join ";"
      (sgr_params ColorLevel.Ansi256
        (on_color (add_style (color (ColoredString_from "x") (TrueColor 255 0 0)) Italic) Blue))
      ++ "m")
    ++ escape_inner_reset_sequences ColorLevel.Ansi256
         (on_color (add_style (color (ColoredString_from "x") (TrueColor 255 0 0)) Italic) Blue)
    ++ reset.
Proof.
  refine (proj1 (C3_render_format ColorLevel.Ansi256 _ _ _ _ _ _)).
  - discriminate.
  - reflexivity.
  - vm_compute. split; [discriminate | reflexivity].
  - simpl. lia.
  - simpl. exact I.
Defined.

(* ------------------------------------------------------------------ *)
(** ** The reset-sequence rewrite *)

Lemma str_length_app (x y : string) : length (x ++ y) = length x + length y.
Proof. induction x as [|c x IH]; simpl; [reflexivity|]. rewrite IH. reflexivity. Qed.

Lemma substring_zero_len n s : substring n 0 s = "".
Proof. revert n. induction s as [|c s IH]; intros [|n]; simpl; auto. Qed.

Lemma substring_snoc (u s' : string) (c : ascii) (a : nat) :
  a <= length u ->
  substring a (S (length u - a)) (u ++ String c s')
  = substring a (length u - a) (u ++ String c s') ++ String c "".
Proof.
  revert a. induction u as [|d u IH]; intros a Ha.
  - simpl in Ha. assert (a = 0) by lia. subst. simpl.
    rewrite substring_zero_len. reflexivity.
  - destruct a as [|a].
    + simpl. specialize (IH 0 ltac:(lia)). rewrite Nat.sub_0_r in IH. rewrite IH.
      reflexivity.
    + simpl in Ha |- *. apply IH. lia.
Qed.

Lemma prefix_app_inv (p s : string) : prefix p s = true -> exists t, s = p ++ t.
Proof.
  revert s. induction p as [|a p IH]; intros s H.
  - exists s. reflexivity.
  - destruct s as [|b s]; simpl in H; [discriminate|].
    destruct (ascii_dec a b) as [->|]; [|discriminate].
    destruct (IH s H) as [t ->]. exists t. reflexivity.
Qed.

Lemma spec_insert_reset pre rest :
  spec_insert_after_resets pre (reset ++ rest) = reset ++ pre ++ spec_insert_after_resets pre rest.
Proof. destruct rest; reflexivity. Qed.

Lemma spec_insert_other pre c s' :
  prefix reset (String c s') = false ->
  spec_insert_after_resets pre (String c s') = String c (spec_insert_after_resets pre s').
Proof.
  intros H. destruct s' as [|c2 [|c3 [|c4 rest]]]; try reflexivity.
  cbn [spec_insert_after_resets]. rewrite H. reflexivity.
Qed.

Lemma spec_insert_no_reset pre s :
  str_contains reset s = false -> spec_insert_after_resets pre s = s.
Proof.
  induction s as [|c s IH]; intros H; [reflexivity|].
  simpl in H. apply orb_false_iff in H as [Hp Hc].
  rewrite spec_insert_other by exact Hp. rewrite IH by exact Hc. reflexivity.
Qed.

Lemma match_indices_reset rest i :
  match_indices_from reset (reset ++ rest) i 0 = i :: match_indices_from reset rest (4 + i) 0.
Proof. destruct rest; reflexivity. Qed.

Lemma match_indices_other c s' i :
  prefix reset (String c s') = false ->
  match_indices_from reset (String c s') i 0 = match_indices_from reset s' (S i) 0.
Proof. intros H. cbn [match_indices_from]. rewrite H. reflexivity. Qed.

Lemma escape_loop_nil pre u acc le :
  le <= length u ->
  escape_finish (u ++ "")
    (fold_left (escape_step (u ++ "") pre) (match_indices_from reset "" (length u) 0) (acc, le))
  = acc ++ slice le (length u) (u ++ "") ++ spec_insert_after_resets pre "".
Proof.
  intros Hle.
  cbn [match_indices_from fold_left spec_insert_after_resets].
  rewrite !str_app_nil_r. unfold escape_finish, slice, slice_from.
  destruct (Nat.ltb le (length u)) eqn:E; [reflexivity|].
  apply Nat.ltb_ge in E. replace (length u - le) with 0 by lia.
  rewrite substring_zero_len, str_app_nil_r. reflexivity.
Qed.

(** The loop invariant: after the occurrences in the suffix [s] of the
    input [u ++ s] have been processed from the state [(acc, le)], the
    final text is [acc], the pending bytes from [le] to the end of [u],
    and the rewritten [s]. *)
Lemma escape_loop_invariant pre : forall n s u acc le,
  length s <= n -> le <= length u ->
  escape_finish (u ++ s)
    (fold_left (escape_step (u ++ s) pre) (match_indices_from reset s (length u) 0) (acc, le))
  = acc ++ slice le (length u) (u ++ s) ++ spec_insert_after_resets pre s.
Proof.
  induction n as [|n IH]; intros s u acc le Hn Hle.
  - destruct s; simpl in Hn; [|lia]. apply escape_loop_nil, Hle.
  - destruct s as [|c s']; [apply escape_loop_nil, Hle|].
    destruct (prefix reset (String c s')) eqn:Hp.
    + destruct (prefix_app_inv _ _ Hp) as [rest Hrest]. rewrite Hrest in *.
      rewrite str_length_app in Hn. change (length reset) with 4 in Hn.
      rewrite match_indices_reset. cbn [fold_left escape_step].
      change (length reset) with 4.
      replace (4 + length u) with (length u + 4) by lia.
      specialize (IH rest (u ++ reset)
                    (((acc ++ slice le (length u) (u ++ reset ++ rest)) ++ reset) ++ pre)
                    (length u + 4)).
      rewrite str_app_assoc, str_length_app in IH. change (length reset) with 4 in IH.
      rewrite IH by lia.
      unfold slice at 2. rewrite Nat.sub_diag, substring_zero_len.
      rewrite spec_insert_reset.
      repeat rewrite str_app_assoc. reflexivity.
    + rewrite match_indices_other by exact Hp.
      rewrite spec_insert_other by exact Hp.
      simpl in Hn.
      specialize (IH s' (u ++ String c "") acc le).
      rewrite str_app_assoc, str_cons_app, str_app_nil_l, str_length_app in IH.
      change (length (String c "")) with 1 in IH.
      replace (S (length u)) with (length u + 1) by lia.
      rewrite IH by lia.
      unfold slice. replace (length u + 1 - le) with (S (length u - le)) by lia.
      rewrite substring_snoc by exact Hle.
      repeat rewrite str_app_assoc. reflexivity.
Qed.

(** C4 (reset-sequence rewrite). For a non-plain coloured string at an
    enabled level, the rewritten text is the input with the preamble
    [compute_style] inserted right after every occurrence of
    ["\x1B[0m"], the other bytes unchanged; without an occurrence it is
    the input itself. *)
Theorem C4_escape_inner_reset_sequences : forall lvl cs,
  lvl <> ColorLevel.None -> is_plain cs = false ->
  escape_inner_reset_sequences lvl cs
    = spec_insert_after_resets (compute_style lvl cs) (input cs) /\
  (str_contains reset (input cs) = false -> escape_inner_reset_sequences lvl cs = input cs).
Proof.
  intros lvl cs Hlvl Hp.
  assert (Hc : has_colors lvl = true)
    by (destruct lvl; [exfalso; apply Hlvl; reflexivity | reflexivity ..]).
  unfold escape_inner_reset_sequences. rewrite Hc, Hp. cbn [negb orb].
  destruct (str_contains reset (input cs)) eqn:Ec.
  - split; [|discriminate]. cbn [negb].
    change (escape_finish (input cs)
              (escape_loop (input cs) (compute_style lvl cs)
                 (match_indices reset (input cs)))
            = spec_insert_after_resets (compute_style lvl cs) (input cs)).
    unfold escape_loop, match_indices.
    pose proof (escape_loop_invariant (compute_style lvl cs) (length (input cs))
                  (input cs) "" "" 0 (le_n _) (le_n _)) as H.
    rewrite !str_app_nil_l in H. change (length "") with 0 in H.
    unfold slice in H. rewrite substring_zero_len, str_app_nil_l in H.
    exact H.
  - split; [|reflexivity]. cbn [negb]. symmetry. apply spec_insert_no_reset, Ec.
Qed.

Lemma C4_escape_inner_reset_sequences_witness :
  escape_inner_reset_sequences ColorLevel.TrueColor
    (add_style (ColoredString_from ("a" ++ reset ++ "b")) Bold)
  = spec_insert_after_resets
      (compute_style ColorLevel.TrueColor (add_style (ColoredString_from ("a" ++ reset ++ "b")) Bold))
      ("a" ++ reset ++ "b") /\
  spec_insert_after_resets (String ESC "[1m") ("a" ++ reset ++ "b")
  = "a" ++ reset ++ String ESC "[1mb".
Proof.
  split.
  - apply (proj1 (C4_escape_inner_reset_sequences ColorLevel.TrueColor
                   (add_style (ColoredString_from ("a" ++ reset ++ "b")) Bold)
                   ltac:(discriminate) ltac:(reflexivity))).
  - vm_compute. reflexivity.
Defined.

(* ------------------------------------------------------------------ *)
(** ** Further properties: style operators *)

Lemma land_pow2_eqb x k :
  (Z.land x (2 ^ Z.of_nat k) =? 2 ^ Z.of_nat k)%Z = Z.testbit x (Z.of_nat k).
Proof.
  destruct (Z.testbit x (Z.of_nat k)) eqn:E.
  - apply Z.eqb_eq, Z.bits_inj. intros n.
    rewrite Z.land_spec.
    destruct (Z.eq_dec n (Z.of_nat k)) as [->|Hne]; [rewrite E; reflexivity|].
    destruct (Z_le_gt_dec 0 n) as [Hn|Hn].
    + rewrite Z.pow2_bits_false by lia. apply andb_false_r.
    + rewrite !Z.testbit_neg_r by lia. reflexivity.
  - apply Z.eqb_neq. intros H.
    assert (Ht := f_equal (fun z => Z.testbit z (Z.of_nat k)) H). simpl in Ht.
    rewrite Z.land_spec, E, Z.pow2_bits_true in Ht by lia. discriminate.
Qed.

Lemma Styles_to_u8_bit t k : Styles_bit t = Some k -> Styles_to_u8 t = (2 ^ Z.of_nat k)%Z.
Proof. destruct t; simpl; intros H; try discriminate; injection H as <-; reflexivity. Qed.

Lemma Styles_bit_lt8 t k : Styles_bit t = Some k -> k < 8.
Proof. destruct t; simpl; intros H; try discriminate; injection H as <-; lia. Qed.

Lemma Styles_bit_None t : Styles_bit t = Datatypes.None -> t = Clear.
Proof. destruct t; simpl; intros H; try discriminate; reflexivity. Qed.

Lemma contains_bit x t :
  Style_contains x t =
  match Styles_bit t with
  | Datatypes.None => true
  | Some k => Z.testbit (style_bits x) (Z.of_nat k)
  end.
Proof.
  destruct (Styles_bit t) eqn:E.
  - unfold Style_contains. rewrite (Styles_to_u8_bit _ _ E). apply land_pow2_eqb.
  - apply Styles_bit_None in E. subst. unfold Style_contains. simpl.
    rewrite Z.land_0_r. reflexivity.
Qed.

Lemma mask_bit s t k :
  Styles_bit t = Some k -> Z.testbit (Styles_to_u8 s) (Z.of_nat k) = Styles_eqb t s.
Proof. destruct t; simpl; intros H; try discriminate; injection H as <-; destruct s; reflexivity. Qed.

Lemma u8_not_bit x k : k < 8 -> Z.testbit (u8_not x) (Z.of_nat k) = negb (Z.testbit x (Z.of_nat k)).
Proof.
  intros Hk. unfold u8_not. rewrite Z.land_spec, Z.lnot_spec by lia.
  assert (H255 : Z.testbit 255 (Z.of_nat k) = true)
    by (do 8 (destruct k as [|k]; [reflexivity|]); lia).
  rewrite H255. apply andb_true_r.
Qed.

Ltac contains_bits :=
  rewrite ?contains_bit; cbn [style_bits Style_bitor Style_bitand Style_bitxor Style_add
    Style_remove Style_not Styles_not Style_bitxor_styles Style_bitor_styles Style_bitand_styles];
  let k := fresh "k" in let E := fresh "E" in
  destruct (Styles_bit _) as [k|] eqn:E.

Lemma contains_bitor x y t :
  Style_contains (Style_bitor x y) t = Style_contains x t || Style_contains y t.
Proof. contains_bits; [apply Z.lor_spec | reflexivity]. Qed.

Lemma contains_bitand x y t :
  Style_contains (Style_bitand x y) t = Style_contains x t && Style_contains y t.
Proof. contains_bits; [apply Z.land_spec | reflexivity]. Qed.

Lemma contains_bitxor x y t :
  Style_contains (Style_bitxor x y) t
  = Styles_eqb t Clear || xorb (Style_contains x t) (Style_contains y t).
Proof.
  contains_bits.
  - destruct t; try discriminate; apply Z.lxor_spec.
  - apply Styles_bit_None in E. subst. reflexivity.
Qed.

Lemma Styles_eqb_Clear t k : Styles_bit t = Some k -> Styles_eqb t Clear = false.
Proof. destruct t; simpl; intros H; try discriminate; reflexivity. Qed.

Lemma contains_add x s t :
  Style_contains (Style_add x s) t = Style_contains x t || Styles_eqb t s.
Proof.
  contains_bits.
  - rewrite Z.lor_spec, (mask_bit s t k E). reflexivity.
  - reflexivity.
Qed.

Lemma contains_remove x s t :
  Style_contains (Style_remove x s) t
  = Style_contains x t && (Styles_eqb t Clear || negb (Styles_eqb t s)).
Proof.
  contains_bits.
  - rewrite Z.land_spec, u8_not_bit by (eapply Styles_bit_lt8; eauto).
    rewrite (mask_bit s t k E), (Styles_eqb_Clear t k E). reflexivity.
  - apply Styles_bit_None in E. subst. reflexivity.
Qed.

Lemma contains_bitxor_styles x s t :
  Style_contains (Style_bitxor_styles x s) t
  = Styles_eqb t Clear || xorb (Style_contains x t) (Styles_eqb t s).
Proof.
  contains_bits.
  - rewrite Z.lxor_spec, (mask_bit s t k E), (Styles_eqb_Clear t k E). reflexivity.
  - apply Styles_bit_None in E. subst. reflexivity.
Qed.

Lemma contains_not x t :
  Style_contains (Style_not x) t = Styles_eqb t Clear || negb (Style_contains x t).
Proof.
  contains_bits.
  - rewrite u8_not_bit by (eapply Styles_bit_lt8; eauto).
    rewrite (Styles_eqb_Clear t k E). reflexivity.
  - apply Styles_bit_None in E. subst. reflexivity.
Qed.

Lemma contains_Styles_not s t :
  Style_contains (Styles_not s) t = Styles_eqb t Clear || negb (Styles_eqb t s).
Proof.
  contains_bits.
  - rewrite u8_not_bit by (eapply Styles_bit_lt8; eauto).
    rewrite (mask_bit s t k E), (Styles_eqb_Clear t k E). reflexivity.
  - apply Styles_bit_None in E. subst. reflexivity.
Qed.

Lemma contains_fold_add l : forall x t,
  Style_contains (fold_left Style_add l x) t
  = Style_contains x t || existsb (Styles_eqb t) l.
Proof.
  induction l as [|s l IH]; intros x t; simpl.
  - rewrite orb_false_r. reflexivity.
  - rewrite IH, contains_add, orb_assoc. reflexivity.
Qed.

Lemma Style_eqb_eq a b : Style_eqb a b = true -> a = b.
Proof. destruct a as [a], b as [b]. unfold Style_eqb. simpl. intros H. apply Z.eqb_eq in H. subst. reflexivity. Qed.

(** X1 ([BitOr], [BitAnd], [BitXor] on [Style]). The bitwise operators act
    switch by switch: [x | y] has a switch when [x] or [y] has it, [x & y]
    when both have it, [x ^ y] when exactly one has it ([Clear] being
    always contained). *)
Theorem Style_bitops_pointwise : forall x y t,
  Style_contains (Style_bitor x y) t = Style_contains x t || Style_contains y t /\
  Style_contains (Style_bitand x y) t = Style_contains x t && Style_contains y t /\
  Style_contains (Style_bitxor x y) t
    = Styles_eqb t Clear || xorb (Style_contains x t) (Style_contains y t).
Proof. intros. split; [|split]; [apply contains_bitor | apply contains_bitand | apply contains_bitxor]. Qed.

(** X2 ([Style::add], [Style::remove]). Adding a switch turns it on and keeps
    every other switch as it was; removing a switch turns it off and keeps
    every other switch ([Clear] stays contained). *)
Theorem Style_add_remove_contains : forall x s t,
  Style_contains (Style_add x s) t = Style_contains x t || Styles_eqb t s /\
  Style_contains (Style_remove x s) t
    = Style_contains x t && (Styles_eqb t Clear || negb (Styles_eqb t s)).
Proof. intros. split; [apply contains_add | apply contains_remove]. Qed.

(** X3 ([Style ^ Styles]). Xor with a switch flips exactly that switch and
    keeps the others. *)
Theorem Style_bitxor_styles_toggles : forall x s t,
  Style_contains (Style_bitxor_styles x s) t
  = Styles_eqb t Clear || xorb (Style_contains x t) (Styles_eqb t s).
Proof. intros. apply contains_bitxor_styles. Qed.

(** X4 ([!Style], [!Styles]). The complement of a style contains exactly the
    switches the style lacks; [!s] for a switch [s] contains every switch
    but [s]. *)
Theorem Style_not_contains : forall x s t,
  Style_contains (Style_not x) t = Styles_eqb t Clear || negb (Style_contains x t) /\
  Style_contains (Styles_not s) t = Styles_eqb t Clear || negb (Styles_eqb t s).
Proof. intros. split; [apply contains_not | apply contains_Styles_not]. Qed.

(** X5 (complement laws on [u8]). For every [u8] style [x], [!!x = x],
    [x & !x] is [CLEAR] and [x | !x] is [!CLEAR], the style with all
    eight bits set. *)
Theorem Style_not_u8_laws : forall x,
  (0 <= style_bits x < 256)%Z ->
  Style_not (Style_not x) = x /\
  Style_bitand x (Style_not x) = CLEAR /\
  Style_bitor x (Style_not x) = Style_not CLEAR.
Proof.
  intros x Hx.
  assert (H := u8_style_cases (fun s =>
    Style_eqb (Style_not (Style_not s)) s &&
    Style_eqb (Style_bitand s (Style_not s)) CLEAR &&
    Style_eqb (Style_bitor s (Style_not s)) (Style_not CLEAR))
    ltac:(vm_compute; reflexivity) x Hx).
  apply andb_prop in H as [H H3]. apply andb_prop in H as [H1 H2].
  apply Style_eqb_eq in H1, H2, H3. auto.
Qed.

Lemma Style_not_u8_laws_witness :
  (0 <= style_bits (MkStyle 37) < 256)%Z /\
  Style_not (Style_not (MkStyle 37)) = MkStyle 37 /\
  Style_bitand (MkStyle 37) (Style_not (MkStyle 37)) = CLEAR /\
  Style_bitor (MkStyle 37) (Style_not (MkStyle 37)) = Style_not CLEAR.
Proof.
  assert (H : (0 <= style_bits (MkStyle 37) < 256)%Z) by (simpl; lia).
  split; [exact H | apply (Style_not_u8_laws (MkStyle 37) H)].
Defined.

(** X6 ([FromIterator<Styles> for Style]). The style collected from a list
    of switches contains a switch exactly when it is in the list (or is
    [Clear]); order and repetitions do not matter. *)
Theorem Style_from_iter_contains : forall l t,
  Style_contains (Style_from_iter l) t = Styles_eqb t Clear || existsb (Styles_eqb t) l.
Proof.
  intros l t. unfold Style_from_iter. rewrite contains_fold_add.
  destruct t; reflexivity.
Qed.

(** X7 ([Styles::from_u8] then [from_iter]). Decomposing a [u8] style into
    its switches with [from_u8] ([None] read as the empty list) and
    collecting them back gives the same style. *)
Theorem Style_from_u8_from_iter_roundtrip : forall u,
  (0 <= u < 256)%Z ->
  Style_from_iter (match Styles_from_u8 u with Some v => v | Datatypes.None => [] end)
  = MkStyle u.
Proof.
  intros u Hu.
  apply Style_eqb_eq.
  apply (u8_style_cases (fun s =>
    Style_eqb (Style_from_iter (match Styles_from_u8 (style_bits s) with
                                | Some v => v | Datatypes.None => [] end)) s)
    ltac:(vm_compute; reflexivity) (MkStyle u) Hu).
Qed.

Lemma Style_from_u8_from_iter_roundtrip_witness :
  (0 <= 137 < 256)%Z /\
  Styles_from_u8 137 = Some [Bold; Italic; Strikethrough] /\
  Style_from_iter [Bold; Italic; Strikethrough] = MkStyle 137.
Proof.
  split; [lia|]. split; [reflexivity|].
  apply (Style_from_u8_from_iter_roundtrip 137 ltac:(lia)).
Defined.

(** X8 ([BitOr], [BitAnd], [BitXor] on two [Styles]). [a | b] is the style
    collected from [a] and [b]; [a & b] is [Style::from(a)] when [a = b]
    and [CLEAR] otherwise; [a ^ b] is [CLEAR] when [a = b] and [a | b]
    otherwise. *)
Theorem Styles_binops : forall a b,
  Styles_bitor a b = Style_from_iter [a; b] /\
  Styles_bitand a b = (if Styles_eqb a b then Style_from a else CLEAR) /\
  Styles_bitxor a b = (if Styles_eqb a b then CLEAR else Styles_bitor a b).
Proof. intros [] []; vm_compute; repeat split. Qed.

(* ------------------------------------------------------------------ *)
(** ** Further properties: colour downgrades and codes *)

Lemma ansi256_step_argmin r g b st idx :
  ansi256_step r g b st idx = argmin_step (dist256 r g b) (fun i => i) st idx.
Proof.
  destruct st as [m c]. unfold ansi256_step, argmin_step, dist256.
  destruct (ansi256_to_rgb idx) as [[cr cg] cb]. simpl.
  destruct (_ <? m)%Z; reflexivity.
Qed.

Lemma fallback_to_ansi256_first_min r g b :
  r < 256 -> g < 256 -> b < 256 ->
  exists k, k < 256 /\ fallback_to_ansi256 (TrueColor r g b) = Ansi256 k /\
    (forall j, j < 256 -> (dist256 r g b k <= dist256 r g b j)%Z) /\
    (forall j, j < k -> (dist256 r g b k < dist256 r g b j)%Z).
Proof.
  intros Hr Hg Hb. unfold fallback_to_ansi256.
  rewrite (fold_left_ext_step _ _ _ _ (ansi256_step_argmin r g b)).
  destruct (argmin_fold _ _ (dist256 r g b) (fun i => i) (seq 0 256) u32_MAX 0 0)
    as (k & Hk & Hf & Hmin & Hfirst).
  - discriminate.
  - intros e He. apply in_seq in He. unfold dist256.
    destruct (ansi256_to_rgb e) as [[cr cg] cb] eqn:E.
    destruct (ansi256_to_rgb_u8 e ltac:(lia) cr cg cb E) as (? & ? & ?).
    apply distance_sq_lt_u32; assumption.
  - rewrite length_seq in Hk, Hmin. exists k.
    rewrite Hf. cbn [snd]. rewrite seq_nth in Hmin, Hfirst |- * by exact Hk.
    repeat split; [exact Hk | |].
    + intros j Hj. specialize (Hmin j Hj). rewrite seq_nth in Hmin by exact Hj. exact Hmin.
    + intros j Hj. specialize (Hfirst j Hj). rewrite seq_nth in Hfirst by lia. exact Hfirst.
Qed.

Lemma dist256_nonneg r g b k : (0 <= dist256 r g b k)%Z.
Proof.
  unfold dist256. destruct (ansi256_to_rgb k) as [[cr cg] cb]. unfold distance_sq.
  rewrite !Z.pow_2_r. repeat apply Z.add_nonneg_nonneg; apply Z.square_nonneg.
Qed.

Lemma distance_sq_zero r g b cr cg cb :
  distance_sq r g b cr cg cb = 0%Z -> r = cr /\ g = cg /\ b = cb.
Proof.
  unfold distance_sq. rewrite !Z.pow_2_r. intros H.
  set (x := (Z.of_nat r - Z.of_nat cr)%Z) in H.
  set (y := (Z.of_nat g - Z.of_nat cg)%Z) in H.
  set (z := (Z.of_nat b - Z.of_nat cb)%Z) in H.
  pose proof (Z.square_nonneg x). pose proof (Z.square_nonneg y). pose proof (Z.square_nonneg z).
  assert (Hx : (x * x = 0)%Z) by lia. assert (Hy : (y * y = 0)%Z) by lia.
  assert (Hz : (z * z = 0)%Z) by lia.
  apply Z.mul_eq_0 in Hx, Hy, Hz. unfold x, y, z in *. lia.
Qed.

(** X9 ([Color::fallback_to_ansi256]). For a [TrueColor] with [u8]
    components the result is [Ansi256 k] with [k < 256] the first palette
    index at minimal squared RGB distance. *)
Theorem fallback_to_ansi256_nearest : forall r g b,
  r < 256 -> g < 256 -> b < 256 ->
  exists k, k < 256 /\ fallback_to_ansi256 (TrueColor r g b) = Ansi256 k /\
    (forall j, j < 256 -> (dist256 r g b k <= dist256 r g b j)%Z) /\
    (forall j, j < k -> (dist256 r g b k < dist256 r g b j)%Z).
Proof. intros r g b Hr Hg Hb. exact (fallback_to_ansi256_first_min r g b Hr Hg Hb). Qed.

Lemma fallback_to_ansi256_nearest_witness :
  exists k, k < 256 /\ fallback_to_ansi256 (TrueColor 250 10 10) = Ansi256 k /\
    (forall j, j < 256 -> (dist256 250 10 10 k <= dist256 250 10 10 j)%Z) /\
    (forall j, j < k -> (dist256 250 10 10 k < dist256 250 10 10 j)%Z).
Proof. apply (fallback_to_ansi256_nearest 250 10 10); lia. Defined.

(** X10 ([fallback_to_ansi256] on palette colours). A [TrueColor] equal to
    the RGB of some palette index [i] is mapped to an index [k <= i]
    with exactly that RGB. *)
Theorem fallback_to_ansi256_exact : forall i r g b,
  i < 256 -> ansi256_to_rgb i = (r, g, b) ->
  exists k, k <= i /\ fallback_to_ansi256 (TrueColor r g b) = Ansi256 k /\
    ansi256_to_rgb k = (r, g, b).
Proof.
  intros i r g b Hi E.
  destruct (ansi256_to_rgb_u8 i Hi r g b E) as (Hr & Hg & Hb).
  destruct (fallback_to_ansi256_first_min r g b Hr Hg Hb) as (k & Hk & Hf & Hmin & Hfirst).
  assert (Hi0 : dist256 r g b i = 0%Z).
  { unfold dist256. rewrite E. unfold distance_sq. rewrite !Z.sub_diag. reflexivity. }
  assert (Hk0 : dist256 r g b k = 0%Z).
  { specialize (Hmin i Hi). pose proof (dist256_nonneg r g b k). lia. }
  exists k. split; [|split; [exact Hf|]].
  - destruct (Nat.le_gt_cases k i) as [H|H]; [exact H|].
    specialize (Hfirst i H). lia.
  - unfold dist256 in Hk0. destruct (ansi256_to_rgb k) as [[cr cg] cb].
    apply distance_sq_zero in Hk0 as (-> & -> & ->). reflexivity.
Qed.

Lemma fallback_to_ansi256_exact_witness :
  exists k, k <= 196 /\ fallback_to_ansi256 (TrueColor 255 0 0) = Ansi256 k /\
    ansi256_to_rgb k = (255, 0, 0).
Proof. apply (fallback_to_ansi256_exact 196 255 0 0); [lia | vm_compute; reflexivity]. Defined.

(** X11 ([fallback_to_ansi16] on the first sixteen indices). [Ansi256 i]
    for [i < 16] is downgraded to the named colour of table entry [i]. *)
Theorem fallback_to_ansi16_first16 : forall i,
  i < 16 -> fallback_to_ansi16 (Ansi256 i) = snd (ansi16_entry i).
Proof.
  intros i Hi. do 16 (destruct i as [|i]; [vm_compute; reflexivity|]). lia.
Qed.

Lemma fallback_to_ansi16_first16_witness :
  fallback_to_ansi16 (Ansi256 9) = snd (ansi16_entry 9) /\ snd (ansi16_entry 9) = BrightRed.
Proof. split; [apply fallback_to_ansi16_first16; lia | reflexivity]. Defined.

Lemma ansi16_fold_init r g b e l c c' :
  (dist16 r g b e < u32_MAX)%Z ->
  fold_left (ansi16_step r g b) (e :: l) (u32_MAX, c)
  = fold_left (ansi16_step r g b) (e :: l) (u32_MAX, c').
Proof.
  intros H. destruct e as [[[cr cg] cb] col]. simpl in H. apply Z.ltb_lt in H.
  assert (E : forall c0, ansi16_step r g b (u32_MAX, c0) (cr, cg, cb, col)
                         = (distance_sq r g b cr cg cb, col))
    by (intros c0; unfold ansi16_step; rewrite H; reflexivity).
  cbn [fold_left]. rewrite !E. reflexivity.
Qed.

(** X12 ([fallback_to_ansi16] of a palette index). Downgrading [Ansi256 i]
    gives the same named colour as downgrading the [TrueColor] of its RGB
    expansion. *)
Theorem fallback_to_ansi16_ansi256_rgb : forall i r g b,
  i < 256 -> ansi256_to_rgb i = (r, g, b) ->
  fallback_to_ansi16 (Ansi256 i) = fallback_to_ansi16 (TrueColor r g b).
Proof.
  intros i r g b Hi E.
  destruct (ansi256_to_rgb_u8 i Hi r g b E) as (Hr & Hg & Hb).
  rewrite (fallback_to_ansi16_expand (Ansi256 i) r g b) by (simpl; rewrite E; reflexivity).
  rewrite (fallback_to_ansi16_expand (TrueColor r g b) r g b) by reflexivity.
  unfold ANSI_16_COLORS. f_equal. apply ansi16_fold_init.
  simpl. apply distance_sq_lt_u32; lia.
Qed.

Lemma fallback_to_ansi16_ansi256_rgb_witness :
  fallback_to_ansi16 (Ansi256 208) = fallback_to_ansi16 (TrueColor 255 135 0).
Proof. apply (fallback_to_ansi16_ansi256_rgb 208); [lia | vm_compute; reflexivity]. Defined.

Ltac in_codes := repeat (first [left; reflexivity | right]).

Lemma named_codes c :
  is_named c = true ->
  In (to_fg_str ColorLevel.Ansi16 c) FG16_CODES /\ In (to_bg_str ColorLevel.Ansi16 c) BG16_CODES.
Proof. destruct c; intros H; try discriminate H; split; vm_compute; in_codes. Qed.

(** X13 (codes under the [Ansi16] level). For every well-formed colour the
    background code is one of the sixteen codes 40-47, 100-107; the
    foreground code is one of 30-37, 90-97 unless the colour is an
    [Ansi256] one. *)
Theorem ansi16_level_codes : forall c,
  Color_wf c ->
  In (to_bg_str ColorLevel.Ansi16 c) BG16_CODES /\
  (In (to_fg_str ColorLevel.Ansi16 c) FG16_CODES \/ exists idx, c = Ansi256 idx).
Proof.
  intros c Hwf. destruct (is_named c) eqn:En.
  - destruct (named_codes c En). auto.
  - pose proof (fallback_to_ansi16_wf_named _ Hwf) as Hn.
    destruct (named_codes _ Hn) as [Hf Hb].
    destruct c as [ | | | | | | | | | | | | | | | | idx | r g b ]; try discriminate En.
    + split; [|right; exists idx; reflexivity].
      change (to_bg_str ColorLevel.Ansi16 (Ansi256 idx))
        with (bg_str_fuel 2 ColorLevel.Ansi16 (fallback_to_ansi16 (Ansi256 idx))).
      destruct (fallback_to_ansi16 (Ansi256 idx)); try discriminate Hn; exact Hb.
    + change (to_bg_str ColorLevel.Ansi16 (TrueColor r g b))
        with (bg_str_fuel 2 ColorLevel.Ansi16 (fallback_to_ansi16 (TrueColor r g b))).
      change (to_fg_str ColorLevel.Ansi16 (TrueColor r g b))
        with (fg_str_fuel 2 ColorLevel.Ansi16 (fallback_to_ansi16 (TrueColor r g b))).
      destruct (fallback_to_ansi16 (TrueColor r g b)); try discriminate Hn; auto.
Qed.

Lemma ansi16_level_codes_witness :
  In (to_bg_str ColorLevel.Ansi16 (TrueColor 10 200 30)) BG16_CODES /\
  (In (to_fg_str ColorLevel.Ansi16 (TrueColor 10 200 30)) FG16_CODES \/
   exists idx, TrueColor 10 200 30 = Ansi256 idx).
Proof. apply ansi16_level_codes. simpl. lia. Defined.

Lemma fold256_lt r g b l : forall m c,
  (forall e, In e l -> e < 256) -> c < 256 ->
  snd (fold_left (ansi256_step r g b) l (m, c)) < 256.
Proof.
  induction l as [|e l IH]; intros m c Hl Hc; cbn [fold_left]; [exact Hc|].
  destruct (ansi256_step r g b (m, c) e) as [m' c'] eqn:E.
  apply IH; [intros; apply Hl; simpl; auto|].
  unfold ansi256_step in E. destruct (ansi256_to_rgb e) as [[cr cg] cb].
  destruct (_ <? m)%Z; injection E as _ <-; [apply Hl; simpl; auto | exact Hc].
Qed.

(** X14 ([TrueColor] codes under the [Ansi256] level). A [TrueColor] is
    written as [38;5;k] and [48;5;k], with [k < 256] the index chosen by
    [fallback_to_ansi256], never as a [38;2] / [48;2] code. *)
Theorem ansi256_level_truecolor_codes : forall r g b,
  exists k, k < 256 /\ fallback_to_ansi256 (TrueColor r g b) = Ansi256 k /\
    to_fg_str ColorLevel.Ansi256 (TrueColor r g b) = "38;5;" ++ dec k /\
    to_bg_str ColorLevel.Ansi256 (TrueColor r g b) = "48;5;" ++ dec k.
Proof.
  intros r g b.
  exists (snd (fold_left (ansi256_step r g b) (seq 0 256) (u32_MAX, 0))).
  split; [|split; [reflexivity | split; reflexivity]].
  apply fold256_lt; [intros e He; apply in_seq in He; lia | lia].
Qed.

(* ------------------------------------------------------------------ *)
(** ** Further properties: coloured strings and hex parsing *)

(** X15 ([Colorize::clear]). [clear] is [clear_fgcolor], [clear_bgcolor] and
    [clear_style] together: it keeps the text, the result is plain and is
    rendered as the bare text at every level; [clear] on a [&str] is
    [clear] of [ColoredString::from]. *)
Theorem clear_plain_render : forall lvl cs s,
  clear cs = clear_style (clear_bgcolor (clear_fgcolor cs)) /\
  input (clear cs) = input cs /\
  is_plain (clear cs) = true /\
  render lvl (clear cs) = input cs /\
  str_clear s = clear (ColoredString_from s).
Proof. intros lvl cs s. repeat split; destruct lvl; reflexivity. Qed.

(** X17 (builder methods). The style methods commute and are idempotent, and
    [color], [on_color] and the style methods commute with one another. *)
Theorem builders_commute : forall cs a b c d,
  add_style (add_style cs a) b = add_style (add_style cs b) a /\
  add_style (add_style cs a) a = add_style cs a /\
  color (on_color cs c) d = on_color (color cs d) c /\
  color (add_style cs a) d = add_style (color cs d) a /\
  on_color (add_style cs a) c = add_style (on_color cs c) a.
Proof.
  intros [i fg bg [x]] a b c d. unfold add_style, color, on_color, Style_add. cbn.
  repeat split; do 2 f_equal.
  - rewrite <- !Z.lor_assoc, (Z.lor_comm (Styles_to_u8 a)). reflexivity.
  - rewrite <- Z.lor_assoc, Z.lor_diag. reflexivity.
Qed.

(** X16 ([ColoredString::compute_style]). The preamble is empty exactly when
    colouring is disabled or the string is plain. *)
Theorem compute_style_empty_iff : forall lvl cs,
  compute_style lvl cs = "" <-> lvl = ColorLevel.None \/ is_plain cs = true.
Proof.
  intros lvl cs. unfold compute_style.
  destruct lvl; cbn [has_colors ColorLevel.eqb negb orb].
  - split; [left; reflexivity | reflexivity].
  - destruct (is_plain cs) eqn:Ep; [split; auto|].
    split; [|intros [H|H]; discriminate H].
    destruct (Style_eqb (style cs) CLEAR), (bgcolor cs), (fgcolor cs);
      cbv beta iota zeta; rewrite ?str_cons_app; intros H; discriminate H.
  - destruct (is_plain cs) eqn:Ep; [split; auto|].
    split; [|intros [H|H]; discriminate H].
    destruct (Style_eqb (style cs) CLEAR), (bgcolor cs), (fgcolor cs);
      cbv beta iota zeta; rewrite ?str_cons_app; intros H; discriminate H.
  - destruct (is_plain cs) eqn:Ep; [split; auto|].
    split; [|intros [H|H]; discriminate H].
    destruct (Style_eqb (style cs) CLEAR), (bgcolor cs), (fgcolor cs);
      cbv beta iota zeta; rewrite ?str_cons_app; intros H; discriminate H.
Qed.

Lemma hex_digit_facts c d :
  to_digit16 c = Some d ->
  d < 16 /\ Nat.ltb (nat_of_ascii c) 128 = true /\
  Ascii.eqb c "+" = false /\ Ascii.eqb c "-" = false /\ Ascii.eqb c "#" = false.
Proof.
  intros H.
  assert (Hall : forallb (fun n =>
    match to_digit16 (ascii_of_nat n) with
    | Some d => Nat.ltb d 16 && Nat.ltb (nat_of_ascii (ascii_of_nat n)) 128 &&
                negb (Ascii.eqb (ascii_of_nat n) "+") && negb (Ascii.eqb (ascii_of_nat n) "-") &&
                negb (Ascii.eqb (ascii_of_nat n) "#")
    | Datatypes.None => true
    end) (seq 0 256) = true) by (vm_compute; reflexivity).
  rewrite forallb_forall in Hall.
  specialize (Hall (nat_of_ascii c) (proj2 (in_seq 256 0 _) (conj (Nat.le_0_l _) (Ascii.nat_ascii_bounded c)))).
  rewrite Ascii.ascii_nat_embedding, H in Hall.
  repeat match type of Hall with
  | _ && _ = true => apply andb_prop in Hall as [Hall ?]
  end.
  apply Nat.ltb_lt in Hall.
  repeat split; try assumption; apply negb_true_iff; assumption.
Qed.

Lemma radix16_one c d : to_digit16 c = Some d -> u8_from_str_radix16 (String c "") = Some d.
Proof.
  intros H. destruct (hex_digit_facts c d H) as (Hd & _ & Hp & Hm & _).
  unfold u8_from_str_radix16. rewrite Hp, Hm. cbn [digits_u8]. rewrite H.
  replace (Nat.ltb (0 * 16 + d) 256) with true by (symmetry; apply Nat.ltb_lt; lia).
  reflexivity.
Qed.

Lemma radix16_two c1 c2 d1 d2 :
  to_digit16 c1 = Some d1 -> to_digit16 c2 = Some d2 ->
  u8_from_str_radix16 (String c1 (String c2 "")) = Some (16 * d1 + d2).
Proof.
  intros H1 H2.
  destruct (hex_digit_facts c1 d1 H1) as (Hd1 & _ & Hp & Hm & _).
  destruct (hex_digit_facts c2 d2 H2) as (Hd2 & _).
  unfold u8_from_str_radix16. rewrite Hp, Hm. cbn [digits_u8]. rewrite H1.
  replace (Nat.ltb (0 * 16 + d1) 256) with true by (symmetry; apply Nat.ltb_lt; lia).
  rewrite H2.
  replace (Nat.ltb ((0 * 16 + d1) * 16 + d2) 256) with true by (symmetry; apply Nat.ltb_lt; lia).
  f_equal. lia.
Qed.

Lemma is_char_boundary_at s i c :
  get i s = Some c -> Nat.ltb (nat_of_ascii c) 128 = true -> is_char_boundary s i = true.
Proof. intros H Hc. unfold is_char_boundary. destruct i; [reflexivity|]. rewrite H, Hc. reflexivity. Qed.

Lemma strip_hash_digit c s d : to_digit16 c = Some d -> strip_hash (String c s) = String c s.
Proof.
  intros H. destruct (hex_digit_facts c d H) as (_ & _ & _ & _ & Hh).
  simpl. rewrite Hh. reflexivity.
Qed.

Lemma parse_hex_str6 c1 c2 c3 c4 c5 c6 d1 d2 d3 d4 d5 d6 :
  to_digit16 c1 = Some d1 -> to_digit16 c2 = Some d2 -> to_digit16 c3 = Some d3 ->
  to_digit16 c4 = Some d4 -> to_digit16 c5 = Some d5 -> to_digit16 c6 = Some d6 ->
  parse_hex (str6 c1 c2 c3 c4 c5 c6)
  = Ret (Some (TrueColor (16 * d1 + d2) (16 * d3 + d4) (16 * d5 + d6))).
Proof.
  intros H1 H2 H3 H4 H5 H6. unfold parse_hex, str6.
  rewrite (strip_hash_digit c1 _ d1 H1). cbv zeta.
  set (s := String c1 (String c2 (String c3 (String c4 (String c5 (String c6 ""))))) ).
  change (length s) with 6. cbv iota.
  assert (E1 : str_index s 0 2 = Ret (String c1 (String c2 ""))).
  { unfold str_index.
    rewrite (is_char_boundary_at s 2 c3 eq_refl (proj1 (proj2 (hex_digit_facts c3 d3 H3)))).
    reflexivity. }
  assert (E2 : str_index s 2 4 = Ret (String c3 (String c4 ""))).
  { unfold str_index.
    rewrite (is_char_boundary_at s 2 c3 eq_refl (proj1 (proj2 (hex_digit_facts c3 d3 H3)))).
    rewrite (is_char_boundary_at s 4 c5 eq_refl (proj1 (proj2 (hex_digit_facts c5 d5 H5)))).
    reflexivity. }
  assert (E3 : str_index s 4 6 = Ret (String c5 (String c6 ""))).
  { unfold str_index.
    rewrite (is_char_boundary_at s 4 c5 eq_refl (proj1 (proj2 (hex_digit_facts c5 d5 H5)))).
    reflexivity. }
  rewrite E1. cbn [obind]. rewrite (radix16_two c1 c2 d1 d2 H1 H2).
  rewrite E2. cbn [obind]. rewrite (radix16_two c3 c4 d3 d4 H3 H4).
  rewrite E3. cbn [obind]. rewrite (radix16_two c5 c6 d5 d6 H5 H6).
  reflexivity.
Qed.

Lemma parse_hex_str3 c1 c2 c3 d1 d2 d3 :
  to_digit16 c1 = Some d1 -> to_digit16 c2 = Some d2 -> to_digit16 c3 = Some d3 ->
  parse_hex (str3 c1 c2 c3) = Ret (Some (TrueColor (d1 * 17) (d2 * 17) (d3 * 17))).
Proof.
  intros H1 H2 H3. unfold parse_hex, str3.
  rewrite (strip_hash_digit c1 _ d1 H1). cbv zeta.
  set (s := String c1 (String c2 (String c3 ""))).
  change (length s) with 3. cbv iota.
  assert (E1 : str_index s 0 1 = Ret (String c1 "")).
  { unfold str_index.
    rewrite (is_char_boundary_at s 1 c2 eq_refl (proj1 (proj2 (hex_digit_facts c2 d2 H2)))).
    reflexivity. }
  assert (E2 : str_index s 1 2 = Ret (String c2 "")).
  { unfold str_index.
    rewrite (is_char_boundary_at s 1 c2 eq_refl (proj1 (proj2 (hex_digit_facts c2 d2 H2)))).
    rewrite (is_char_boundary_at s 2 c3 eq_refl (proj1 (proj2 (hex_digit_facts c3 d3 H3)))).
    reflexivity. }
  assert (E3 : str_index s 2 3 = Ret (String c3 "")).
  { unfold str_index.
    rewrite (is_char_boundary_at s 2 c3 eq_refl (proj1 (proj2 (hex_digit_facts c3 d3 H3)))).
    reflexivity. }
  rewrite E1. cbn [obind]. rewrite (radix16_one c1 d1 H1).
  rewrite E2. cbn [obind]. rewrite (radix16_one c2 d2 H2).
  rewrite E3. cbn [obind]. rewrite (radix16_one c3 d3 H3).
  reflexivity.
Qed.

Lemma parse_hex_hash s :
  (forall s', s <> String "#" s') -> parse_hex (String "#" s) = parse_hex s.
Proof.
  intros H. unfold parse_hex.
  assert (Hs : strip_hash (String "#" s) = strip_hash s).
  { destruct s as [|c s']; [reflexivity|]. simpl.
    destruct (Ascii.eqb c "#") eqn:E; [|reflexivity].
    apply Ascii.eqb_eq in E. subst. exfalso. apply (H s'). reflexivity. }
  rewrite Hs. reflexivity.
Qed.

(** X18 ([parse_hex], six digits). Six hexadecimal digits, with or without a
    leading ['#'], give [TrueColor] of the three two-digit values. *)
Theorem parse_hex_six_digits : forall c1 c2 c3 c4 c5 c6 d1 d2 d3 d4 d5 d6,
  to_digit16 c1 = Some d1 -> to_digit16 c2 = Some d2 -> to_digit16 c3 = Some d3 ->
  to_digit16 c4 = Some d4 -> to_digit16 c5 = Some d5 -> to_digit16 c6 = Some d6 ->
  parse_hex (str6 c1 c2 c3 c4 c5 c6)
    = Ret (Some (TrueColor (16 * d1 + d2) (16 * d3 + d4) (16 * d5 + d6))) /\
  parse_hex (String "#" (str6 c1 c2 c3 c4 c5 c6))
    = Ret (Some (TrueColor (16 * d1 + d2) (16 * d3 + d4) (16 * d5 + d6))).
Proof.
  intros c1 c2 c3 c4 c5 c6 d1 d2 d3 d4 d5 d6 H1 H2 H3 H4 H5 H6.
  pose proof (parse_hex_str6 c1 c2 c3 c4 c5 c6 d1 d2 d3 d4 d5 d6 H1 H2 H3 H4 H5 H6) as E.
  split; [exact E|]. rewrite parse_hex_hash; [exact E|].
  intros s' Hs. unfold str6 in Hs. injection Hs as Hc _. subst c1.
  destruct (hex_digit_facts "#" d1 H1) as (_ & _ & _ & _ & Hh). discriminate Hh.
Qed.

Lemma parse_hex_six_digits_witness :
  parse_hex (str6 "1" "e" "9" "0" "F" "f") = Ret (Some (TrueColor 30 144 255)) /\
  parse_hex (String "#" (str6 "1" "e" "9" "0" "F" "f")) = Ret (Some (TrueColor 30 144 255)).
Proof. apply (parse_hex_six_digits "1" "e" "9" "0" "F" "f" 1 14 9 0 15 15); reflexivity. Defined.

(** X19 ([parse_hex], three digits). Three hexadecimal digits give the
    components [d * 17], the same colour as the six-digit string with
    every digit doubled. *)
Theorem parse_hex_three_digits : forall c1 c2 c3 d1 d2 d3,
  to_digit16 c1 = Some d1 -> to_digit16 c2 = Some d2 -> to_digit16 c3 = Some d3 ->
  parse_hex (str3 c1 c2 c3) = Ret (Some (TrueColor (d1 * 17) (d2 * 17) (d3 * 17))) /\
  parse_hex (str3 c1 c2 c3) = parse_hex (str6 c1 c1 c2 c2 c3 c3).
Proof.
  intros c1 c2 c3 d1 d2 d3 H1 H2 H3.
  rewrite (parse_hex_str3 c1 c2 c3 d1 d2 d3 H1 H2 H3).
  rewrite (parse_hex_str6 c1 c1 c2 c2 c3 c3 d1 d1 d2 d2 d3 d3 H1 H1 H2 H2 H3 H3).
  split; [reflexivity|]. do 2 f_equal. f_equal; lia.
Qed.

Lemma parse_hex_three_digits_witness :
  parse_hex (str3 "f" "0" "9") = Ret (Some (TrueColor 255 0 153)) /\
  parse_hex (str3 "f" "0" "9") = parse_hex (str6 "f" "f" "0" "0" "9" "9").
Proof. apply (parse_hex_three_digits "f" "0" "9" 15 0 9); reflexivity. Defined.

(** X20 ([parse_hex], the ['#'] prefix). A leading ['#'] in front of a
    string that does not itself start with ['#'] does not change the
    result. *)
Theorem parse_hex_hash_optional : forall s,
  (forall s', s <> String "#" s') -> parse_hex (String "#" s) = parse_hex s.
Proof. exact parse_hex_hash. Qed.

Lemma parse_hex_hash_optional_witness :
  parse_hex (String "#" "12z") = parse_hex "12z".
Proof. apply parse_hex_hash_optional. intros s' H. discriminate H. Defined.

(** X21 ([parse_hex], other lengths). When the byte length after stripping
    one ['#'] is neither 3 nor 6 the result is [None], without a panic. *)
Theorem parse_hex_other_lengths : forall s0,
  length (strip_hash s0) <> 3 -> length (strip_hash s0) <> 6 ->
  parse_hex s0 = Ret Datatypes.None.
Proof.
  intros s0 H3 H6. unfold parse_hex. cbv zeta.
  destruct (length (strip_hash s0)) as [|[|[|[|[|[|[|n]]]]]]]; try reflexivity; congruence.
Qed.

Lemma parse_hex_other_lengths_witness :
  parse_hex "#ff00991" = Ret Datatypes.None.
Proof. apply parse_hex_other_lengths; vm_compute; discriminate. Defined.

Lemma digits_u8_lt s : forall acc v, acc < 256 -> digits_u8 acc s = Some v -> v < 256.
Proof.
  induction s as [|c s IH]; intros acc v Hacc H; simpl in H.
  - injection H as <-. exact Hacc.
  - destruct (to_digit16 c); [|discriminate].
    destruct (Nat.ltb (acc * 16 + n) 256) eqn:E; [|discriminate].
    apply Nat.ltb_lt in E. exact (IH _ _ E H).
Qed.

Lemma radix16_lt src v : u8_from_str_radix16 src = Some v -> v < 256.
Proof.
  unfold u8_from_str_radix16. destruct src as [|c rest]; [discriminate|].
  destruct (Ascii.eqb c "+"); [destruct rest; [discriminate|]|];
    [|destruct (Ascii.eqb c "-"); [destruct rest; [discriminate|]|]];
    apply digits_u8_lt; lia.
Qed.

Lemma radix16_single c v : u8_from_str_radix16 (String c "") = Some v -> v < 16.
Proof.
  unfold u8_from_str_radix16.
  destruct (Ascii.eqb c "+"); [discriminate|].
  destruct (Ascii.eqb c "-"); [discriminate|].
  cbn [digits_u8]. destruct (to_digit16 c) as [d|] eqn:E; [|discriminate].
  destruct (Nat.ltb (0 * 16 + d) 256); [|discriminate].
  intros H. injection H as <-. destruct (hex_digit_facts c d E). lia.
Qed.

Lemma substring_one s : forall a, S a <= length s -> exists c, substring a 1 s = String c "".
Proof.
  induction s as [|c s IH]; intros a Ha; simpl in Ha; [lia|].
  destruct a as [|a].
  - exists c. destruct s; reflexivity.
  - apply IH. lia.
Qed.

Lemma str_index_one s a t : str_index s a (S a) = Ret t -> exists c, t = String c "".
Proof.
  unfold str_index.
  destruct (Nat.leb a (S a) && Nat.leb (S a) (length s) && is_char_boundary s a &&
            is_char_boundary s (S a)) eqn:E; [|discriminate].
  intros H. replace (S a - a) with 1 in H by lia. injection H as <-.
  apply andb_prop in E as [E _]. apply andb_prop in E as [E _].
  apply andb_prop in E as [_ E]. apply Nat.leb_le in E.
  apply substring_one. exact E.
Qed.

(** X22 ([parse_hex], no overflow). Every colour [parse_hex] returns is a
    [TrueColor] whose components fit in a [u8]; in particular [r * 17]
    of the three-digit branch never overflows. *)
Theorem parse_hex_u8_components : forall s0 c,
  parse_hex s0 = Ret (Some c) ->
  Color_wf c /\ exists r g b, c = TrueColor r g b.
Proof.
  intros s0 c H. unfold parse_hex in H. cbv zeta in H.
  destruct (length (strip_hash s0)) as [|[|[|[|[|[|[|n]]]]]]]; try discriminate H.
  - destruct (str_index _ 0 1) as [sr|] eqn:E1; [|discriminate H]. cbn [obind] in H.
    destruct (u8_from_str_radix16 sr) as [r|] eqn:R1; [|discriminate H].
    destruct (str_index _ 1 2) as [sg|] eqn:E2; [|discriminate H]. cbn [obind] in H.
    destruct (u8_from_str_radix16 sg) as [g|] eqn:R2; [|discriminate H].
    destruct (str_index _ 2 3) as [sb|] eqn:E3; [|discriminate H]. cbn [obind] in H.
    destruct (u8_from_str_radix16 sb) as [b|] eqn:R3; [|discriminate H].
    injection H as <-.
    destruct (str_index_one _ _ _ E1) as [x1 ->].
    destruct (str_index_one _ _ _ E2) as [x2 ->].
    destruct (str_index_one _ _ _ E3) as [x3 ->].
    apply radix16_single in R1, R2, R3.
    split; [simpl; lia | eauto].
  - destruct (str_index _ 0 2) as [sr|] eqn:E1; [|discriminate H]. cbn [obind] in H.
    destruct (u8_from_str_radix16 sr) as [r|] eqn:R1; [|discriminate H].
    destruct (str_index _ 2 4) as [sg|] eqn:E2; [|discriminate H]. cbn [obind] in H.
    destruct (u8_from_str_radix16 sg) as [g|] eqn:R2; [|discriminate H].
    destruct (str_index _ 4 6) as [sb|] eqn:E3; [|discriminate H]. cbn [obind] in H.
    destruct (u8_from_str_radix16 sb) as [b|] eqn:R3; [|discriminate H].
    injection H as <-.
    apply radix16_lt in R1, R2, R3.
    split; [simpl; lia | eauto].
Qed.

Lemma parse_hex_u8_components_witness :
  Color_wf (TrueColor 255 255 255) /\ exists r g b, TrueColor 255 255 255 = TrueColor r g b.
Proof. apply (parse_hex_u8_components "#fff"). vm_compute. reflexivity. Defined.

(** X23 ([hexcolor] / [on_hexcolor]). The panicking variants are the
    [try_] variants followed by [unwrap]: they return the same coloured
    string when it exists and panic exactly when the [try_] variant gives
    [None]. *)
Theorem hexcolor_is_unwrapped_try : forall cs h,
  hexcolor cs h = obind (try_hexcolor cs h) unwrap /\
  on_hexcolor cs h = obind (try_on_hexcolor cs h) unwrap.
Proof.
  intros cs h. unfold hexcolor, try_hexcolor, on_hexcolor, try_on_hexcolor.
  destruct (parse_hex h) as [[c|]|]; split; reflexivity.
Qed.
